(** * Shallow embedding of the text receipt of [dist/receipt.js]

    The development covers [calculateLineItems], [wrapText] and
    [generateReceipt] (the text receipt), and the drawing done by
    [generateReceiptImage] under Node.

    Modelling choices:
    - A JavaScript Number is [num]: NaN, the two infinities, or a finite
      decimal [Dec m e] standing for [m * 10^e].  Every finite value the
      text receipt meets is a decimal literal or is obtained from such
      literals by [+], [-], [*] and [/ 100], so decimals are closed under
      the operations of the source.  Finite arithmetic is exact: the
      rounding of IEEE-754 doubles (and [-0]) is not modelled.
    - An item's [quantity] and [price] are arbitrary primitive JavaScript
      values [jsval]; the other fields of the receipt data have the types
      the documentation gives them.
    - Strings are Rocq byte strings; [length] counts bytes, which is the
      JavaScript length for ASCII text.  Whitespace (for [trim] and number
      parsing) is the ASCII whitespace TAB, LF, VT, FF, CR and SPACE.
    - A thrown [TypeError] is [None]; [console.warn] output is returned as a
      list of messages.
    - For [generateReceiptImage], [ctx.measureText(s).width], the loading of
      the logo and the making of the QR code image are parameters; widths
      are rationals (float rounding is not modelled) and a QR code size is
      an integer.  The drawing calls are recorded with the [y] they are made
      at; fonts, colours, the logo's [x] and size and the browser path
      (local storage, data URL, download) are not modelled. *)

From Stdlib Require Import ZArith Lia List Bool.
From Stdlib Require Import Strings.String Strings.Ascii.
From Stdlib Require Import Numbers.DecimalString.
From Stdlib Require Import QArith.
Import ListNotations.
Open Scope string_scope.
Open Scope Z_scope.

(** ** Option notation for code that may throw *)

Definition bind_opt {A B} (m : option A) (k : A -> option B) : option B :=
  match m with Some a => k a | None => None end.

Notation "x <- m ; k" := (bind_opt m (fun x => k))
  (at level 61, m at next level, right associativity).

(** ** JavaScript numbers *)

Inductive num : Type :=
| Dec (m : Z) (e : Z)   (* the finite value m * 10^e *)
| NaN
| PInf
| NInf.

Definition num_zero : num := Dec 0 0.

Definition num_isNaN (x : num) : bool :=
  match x with NaN => true | _ => false end.

(** [x < 0] *)
Definition num_lt0 (x : num) : bool :=
  match x with Dec m _ => m <? 0 | NInf => true | _ => false end.

(** [x > 0] *)
Definition num_gt0 (x : num) : bool :=
  match x with Dec m _ => 0 <? m | PInf => true | _ => false end.

Definition num_neg (x : num) : num :=
  match x with
  | Dec m e => Dec (- m) e
  | NaN => NaN
  | PInf => NInf
  | NInf => PInf
  end.

(** [x + y] on Numbers. *)
Definition num_add (x y : num) : num :=
  match x, y with
  | NaN, _ | _, NaN => NaN
  | PInf, NInf | NInf, PInf => NaN
  | PInf, _ | _, PInf => PInf
  | NInf, _ | _, NInf => NInf
  | Dec m1 e1, Dec m2 e2 =>
      let e := Z.min e1 e2 in
      Dec (m1 * 10 ^ (e1 - e) + m2 * 10 ^ (e2 - e)) e
  end.

(** [x - y] on Numbers. *)
Definition num_sub (x y : num) : num := num_add x (num_neg y).

Definition num_sgn (x : num) : Z :=
  match x with Dec m _ => Z.sgn m | PInf => 1 | NInf => -1 | NaN => 0 end.

(** [x * y] on Numbers; an infinite factor gives NaN against zero and
    an infinity of the sign of the product otherwise. *)
Definition num_mul (x y : num) : num :=
  match x, y with
  | NaN, _ | _, NaN => NaN
  | Dec m1 e1, Dec m2 e2 => Dec (m1 * m2) (e1 + e2)
  | _, _ =>
      let s := num_sgn x * num_sgn y in
      if s =? 0 then NaN else if 0 <? s then PInf else NInf
  end.

(** [x / 10^k]: the source divides only by the literal [100]. *)
Definition num_div_pow10 (x : num) (k : Z) : num :=
  match x with Dec m e => Dec m (e - k) | _ => x end.

(** ** Characters and strings *)

Definition is_ws (c : ascii) : bool :=
  let n := nat_of_ascii c in
  (Nat.eqb n 32 || Nat.eqb n 9 || Nat.eqb n 10 || Nat.eqb n 11
   || Nat.eqb n 12 || Nat.eqb n 13)%bool.

Definition is_digit (c : ascii) : bool :=
  let n := nat_of_ascii c in (Nat.leb 48 n && Nat.leb n 57)%bool.

Definition digit_val (c : ascii) : Z := Z.of_nat (nat_of_ascii c) - 48.

Definition slen (s : string) : Z := Z.of_nat (String.length s).

Fixpoint spaces (n : nat) : string :=
  match n with O => "" | S k => String " " (spaces k) end.

Fixpoint zeros (n : nat) : string :=
  match n with O => "" | S k => String "0" (zeros k) end.

(** [s.padStart(n)] and [s.padEnd(n)] with the default filler " ". *)
Definition padStart (s : string) (n : Z) : string :=
  if n <=? slen s then s else spaces (Z.to_nat (n - slen s)) ++ s.

Definition padEnd (s : string) (n : Z) : string :=
  if n <=? slen s then s else s ++ spaces (Z.to_nat (n - slen s)).

Fixpoint trim_start (s : string) : string :=
  match s with
  | EmptyString => EmptyString
  | String c r => if is_ws c then trim_start r else s
  end.

Fixpoint trim_end (s : string) : string :=
  match s with
  | EmptyString => EmptyString
  | String c r =>
      let r' := trim_end r in
      if (String.eqb r' "" && is_ws c)%bool then "" else String c r'
  end.

(** [s.trim()] *)
Definition trim (s : string) : string := trim_end (trim_start s).

(** [s.split(c)] for a one-character separator: [""] splits to [[""]]. *)
Fixpoint split_aux (c : ascii) (s : string) (cur : string) : list string :=
  match s with
  | EmptyString => [cur]
  | String x r =>
      if Ascii.eqb x c then cur :: split_aux c r ""
      else split_aux c r (cur ++ String x "")
  end.

Definition split_on (c : ascii) (s : string) : list string := split_aux c s "".

(** Decimal digits of an integer, [String(z)] for an integer [z]. *)
Definition Z_to_string (z : Z) : string :=
  NilEmpty.string_of_int (Z.to_int z).

(** ** [Number.prototype.toString] and [toFixed(2)] *)

(** Strip the trailing decimal zeros of [m * 10^e] ([m <> 0]). *)
Fixpoint strip_zeros (fuel : nat) (m e : Z) : Z * Z :=
  match fuel with
  | O => (m, e)
  | S f => if m mod 10 =? 0 then strip_zeros f (m / 10) (e + 1) else (m, e)
  end.

(** ECMA-262 Number::toString for a positive decimal [m * 10^e]: with the
    digits [s] of length [k] and the decimal point position [n]. *)
Definition pos_to_string (m e : Z) : string :=
  let '(m', e') := strip_zeros (Z.to_nat (Z.log2 m + 1)) m e in
  let s := Z_to_string m' in
  let k := slen s in
  let n := k + e' in
  if (k <=? n) && (n <=? 21) then s ++ zeros (Z.to_nat (n - k))
  else if (0 <? n) && (n <=? 21) then
    substring 0 (Z.to_nat n) s ++ "." ++ substring (Z.to_nat n) (Z.to_nat (k - n)) s
  else if (-6 <? n) && (n <=? 0) then "0." ++ zeros (Z.to_nat (- n)) ++ s
  else
    let ex := n - 1 in
    let es := (if 0 <=? ex then "+" else "-") ++ Z_to_string (Z.abs ex) in
    if k =? 1 then s ++ "e" ++ es
    else substring 0 1 s ++ "." ++ substring 1 (Z.to_nat (k - 1)) s ++ "e" ++ es.

Definition num_to_string (x : num) : string :=
  match x with
  | NaN => "NaN"
  | PInf => "Infinity"
  | NInf => "-Infinity"
  | Dec m e =>
      if m =? 0 then "0"
      else if m <? 0 then "-" ++ pos_to_string (- m) e
      else pos_to_string m e
  end.

(** [a * 10^e >= 10^k] for [a >= 0]. *)
Definition dec_ge_pow10 (a e k : Z) : bool :=
  if 0 <=? e then 10 ^ k <=? a * 10 ^ e else 10 ^ (k - e) <=? a.

(** [x.toFixed(2)]: ECMA-262 Number.prototype.toFixed with [f = 2]; the
    integer [n] nearest to [|x| * 100] is taken, the larger on a tie. *)
Definition to_fixed2 (x : num) : string :=
  match x with
  | Dec m e =>
      let a := Z.abs m in
      if dec_ge_pow10 a e 21 then num_to_string x
      else
        let sgn := if m <? 0 then "-" else "" in
        let n := if 0 <=? e + 2 then a * 10 ^ (e + 2)
                 else (2 * a + 10 ^ (- (e + 2))) / (2 * 10 ^ (- (e + 2))) in
        let ds0 := Z_to_string n in
        let ds := if slen ds0 <=? 2 then zeros (Z.to_nat (3 - slen ds0)) ++ ds0
                  else ds0 in
        let k := String.length ds in
        sgn ++ substring 0 (k - 2) ds ++ "." ++ substring (k - 2) 2 ds
  | _ => num_to_string x
  end.

(** ** Number parsing: [StrDecimalLiteral] *)

Fixpoint take_digits (s : string) : string * string :=
  match s with
  | EmptyString => ("", "")
  | String c r =>
      if is_digit c then let '(d, r') := take_digits r in (String c d, r')
      else ("", s)
  end.

Fixpoint digits_value_aux (d : string) (acc : Z) : Z :=
  match d with
  | EmptyString => acc
  | String c r => digits_value_aux r (acc * 10 + digit_val c)
  end.

Definition digits_value (d : string) : Z := digits_value_aux d 0.

(** An [ExponentPart]; when no digit follows the [e], nothing is read. *)
Definition exponent_part (s : string) : Z * string :=
  match s with
  | String c r =>
      if (Ascii.eqb c "e" || Ascii.eqb c "E")%bool then
        let '(sg, r1) :=
          match r with
          | String c' r' =>
              if Ascii.eqb c' "+" then (1, r')
              else if Ascii.eqb c' "-" then (-1, r') else (1, r)
          | EmptyString => (1, r)
          end in
        let '(d, r2) := take_digits r1 in
        if String.eqb d "" then (0, s) else (sg * digits_value d, r2)
      else (0, s)
  | EmptyString => (0, s)
  end.

Definition after_dot (s : string) : option string :=
  match s with
  | String c r => if Ascii.eqb c "." then Some r else None
  | EmptyString => None
  end.

(** The longest prefix of [s] that is a [StrUnsignedDecimalLiteral], with
    its value and the rest of [s]. *)
Definition parse_unsigned (s : string) : option (num * string) :=
  if String.prefix "Infinity" s then
    Some (PInf, substring 8 (String.length s - 8) s)
  else
    let '(d1, r1) := take_digits s in
    match after_dot r1 with
    | Some r =>
        let '(d2, r2) := take_digits r in
        if (String.eqb d1 "" && String.eqb d2 "")%bool then None
        else
          let '(x, r3) := exponent_part r2 in
          Some (Dec (digits_value (d1 ++ d2)) (x - slen d2), r3)
    | None =>
        if String.eqb d1 "" then None
        else
          let '(x, r3) := exponent_part r1 in
          Some (Dec (digits_value d1) x, r3)
    end.

(** The longest prefix of [s] that is a [StrDecimalLiteral]. *)
Definition parse_decimal (s : string) : option (num * string) :=
  match s with
  | String c r =>
      if Ascii.eqb c "+" then parse_unsigned r
      else if Ascii.eqb c "-" then
        match parse_unsigned r with
        | Some (v, r') => Some (num_neg v, r')
        | None => None
        end
      else parse_unsigned s
  | EmptyString => None
  end.

(** [parseFloat] on a string. *)
Definition parse_float_string (s : string) : num :=
  match parse_decimal (trim_start s) with
  | Some (v, _) => v
  | None => NaN
  end.

Definition digit_in_base (b : Z) (c : ascii) : option Z :=
  let n := Z.of_nat (nat_of_ascii c) in
  let v := if (48 <=? n) && (n <=? 57) then n - 48
           else if (97 <=? n) && (n <=? 122) then n - 87
           else if (65 <=? n) && (n <=? 90) then n - 55
           else 99 in
  if v <? b then Some v else None.

Fixpoint base_value (b : Z) (s : string) (acc : Z) : option Z :=
  match s with
  | EmptyString => Some acc
  | String c r => v <- digit_in_base b c; base_value b r (acc * b + v)
  end.

Definition base_of_prefix (c : ascii) : Z :=
  if (Ascii.eqb c "x" || Ascii.eqb c "X")%bool then 16
  else if (Ascii.eqb c "o" || Ascii.eqb c "O")%bool then 8
  else if (Ascii.eqb c "b" || Ascii.eqb c "B")%bool then 2
  else 0.

(** [NonDecimalIntegerLiteral]: [0x..], [0o..], [0b..]. *)
Definition non_decimal (t : string) : option num :=
  match t with
  | String z (String x r) =>
      if Ascii.eqb z "0" then
        let b := base_of_prefix x in
        if ((b =? 0) || String.eqb r "")%bool then None
        else match base_value b r 0 with
             | Some v => Some (Dec v 0)
             | None => None
             end
      else None
  | _ => None
  end.

(** ECMA-262 StringToNumber. *)
Definition string_to_number (s : string) : num :=
  let t := trim s in
  if String.eqb t "" then num_zero
  else match non_decimal t with
       | Some v => v
       | None =>
           match parse_decimal t with
           | Some (v, EmptyString) => v
           | _ => NaN
           end
       end.

(** ** Primitive JavaScript values *)

Inductive jsval : Type :=
| JUndef
| JNull
| JBool (b : bool)
| JNum (n : num)
| JStr (s : string)
| JSym (description : string)
| JBigInt (z : Z).

(** The abstract operation ToString; it throws on a Symbol. *)
Definition js_ToString (v : jsval) : option string :=
  match v with
  | JUndef => Some "undefined"
  | JNull => Some "null"
  | JBool b => Some (if b then "true" else "false")
  | JNum n => Some (num_to_string n)
  | JStr s => Some s
  | JSym _ => None
  | JBigInt z => Some (Z_to_string z)
  end.

(** The abstract operation ToNumber; it throws on a Symbol and on a
    BigInt. *)
Definition js_ToNumber (v : jsval) : option num :=
  match v with
  | JUndef => Some NaN
  | JNull => Some num_zero
  | JBool b => Some (if b then Dec 1 0 else num_zero)
  | JNum n => Some n
  | JStr s => Some (string_to_number s)
  | JSym _ => None
  | JBigInt _ => None
  end.

(** A numeric value: a Number or a BigInt. *)
Inductive numeric : Type :=
| NumberV (n : num)
| BigIntV (z : Z).

(** The abstract operation ToNumeric: a BigInt stays a BigInt. *)
Definition js_ToNumeric (v : jsval) : option numeric :=
  match v with
  | JBigInt z => Some (BigIntV z)
  | _ => n <- js_ToNumber v; Some (NumberV n)
  end.

(** [parseFloat(v)] reads the longest decimal prefix of [ToString(v)].  For
    a Number [n], [parseFloat(n)] is [n] ([-0] aside), which is used
    directly. *)
Definition parseFloat (v : jsval) : option num :=
  match v with
  | JNum n => Some n
  | _ => s <- js_ToString v; Some (parse_float_string s)
  end.

(** [a * b]: a Number times a Number, or a BigInt times a BigInt; mixing
    the two throws a TypeError. *)
Definition js_mul (a b : jsval) : option numeric :=
  x <- js_ToNumeric a; y <- js_ToNumeric b;
  match x, y with
  | NumberV m, NumberV n => Some (NumberV (num_mul m n))
  | BigIntV m, BigIntV n => Some (BigIntV (m * n))
  | _, _ => None
  end.

(** [v.toString()]: a TypeError on [undefined] and [null]. *)
Definition js_toString_method (v : jsval) : option string :=
  match v with
  | JUndef | JNull => None
  | JSym d => Some ("Symbol(" ++ d ++ ")")
  | _ => js_ToString v
  end.

(** ** Receipt data *)

Record item : Type := mkItem {
  name : string;
  quantity : jsval;
  price : jsval
}.

(** [{ ...item, total }] *)
Record line_item : Type := mkLineItem {
  li_name : string;
  li_quantity : jsval;
  li_price : jsval;
  li_total : num
}.

Record discount_spec : Type := mkDiscount {
  dtype : string;     (* 'percentage' or anything else (fixed) *)
  dvalue : num
}.

Record receipt_data : Type := mkReceipt {
  storeName : option string;
  companyAddress : option string;
  items : list item;
  taxRate : option num;
  vatRate : option num;
  discount : option discount_spec;
  currency : option string
}.

Definition default {A} (d : A) (o : option A) : A :=
  match o with Some a => a | None => d end.

(** ** [calculateLineItems] *)

Definition invalid_item_warning (it : item) : string :=
  "Invalid quantity or price for item: " ++ name it ++ ". Defaulting to 0.".

(** The arrow function mapped over [items]: the line item and what it
    writes to [console.warn].  A BigInt [total] (both fields BigInts) is
    kept by the [map], but the [reduce] then computes [sum + item.total]
    with [sum] a Number ([0], or a sum of the Number totals before it),
    which throws a TypeError: [calculateLineItems] throws, and the model
    throws at that item. *)
Definition calc_item (it : item) : option (line_item * list string) :=
  quantity' <- parseFloat (quantity it);
  price' <- parseFloat (price it);
  if (num_isNaN quantity' || num_isNaN price'
      || num_lt0 quantity' || num_lt0 price')%bool
  then Some (mkLineItem (name it) (JNum num_zero) (JNum num_zero) num_zero,
             [invalid_item_warning it])
  else
    total <- js_mul (quantity it) (price it);
    match total with
    | NumberV t => Some (mkLineItem (name it) (quantity it) (price it) t, [])
    | BigIntV _ => None
    end.

Fixpoint map_items (its : list item) : option (list line_item * list string) :=
  match its with
  | [] => Some ([], [])
  | it :: rest =>
      r <- calc_item it;
      rs <- map_items rest;
      Some (fst r :: fst rs, (snd r ++ snd rs)%list)
  end.

Definition sum_totals (lis : list line_item) : num :=
  fold_left (fun sum li => num_add sum (li_total li)) lis num_zero.

(** Line items, subtotal and the warnings written. *)
Definition calculateLineItems (its : list item)
  : option (list line_item * num * list string) :=
  r <- map_items its;
  Some (fst r, sum_totals (fst r), snd r).

(** ** [wrapText] *)

Definition wrap_step (maxLength : Z) (st : list string * string) (word : string)
  : list string * string :=
  let '(lines, currentLine) := st in
  if ((maxLength <? slen (currentLine ++ word)) && (0 <? slen currentLine))%bool
  then ((lines ++ [trim currentLine])%list, word ++ " ")
  else (lines, currentLine ++ word ++ " ").

Definition wrapText (text : string) (maxLength : Z) : list string :=
  let words := split_on " " text in
  let '(lines, currentLine) := fold_left (wrap_step maxLength) words ([], "") in
  (lines ++ [trim currentLine])%list.

(** ** [generateReceipt] *)

Record totals : Type := mkTotals {
  t_subtotal : num;
  t_discountAmount : num;
  t_subtotalAfterDiscount : num;
  t_tax : num;
  t_vat : num;
  t_total : num
}.

Definition is_percentage (ds : discount_spec) : bool :=
  String.eqb (dtype ds) "percentage".

Definition discount_amount (subtotal : num) (d : option discount_spec) : num :=
  match d with
  | None => num_zero
  | Some ds =>
      if is_percentage ds then num_mul subtotal (num_div_pow10 (dvalue ds) 2)
      else dvalue ds
  end.

Definition compute_totals (subtotal : num) (d : option discount_spec)
  (taxRate vatRate : num) : totals :=
  let discountAmount := discount_amount subtotal d in
  let subtotalAfterDiscount := num_sub subtotal discountAmount in
  let tax := num_mul subtotalAfterDiscount taxRate in
  let vat := num_mul subtotalAfterDiscount vatRate in
  let total := num_add (num_add subtotalAfterDiscount tax) vat in
  mkTotals subtotal discountAmount subtotalAfterDiscount tax vat total.

Definition rule_eq : string := "================================".
Definition rule_dash : string := "--------------------------------".

(** [s.padStart(15 + s.length / 2)] *)
Definition centered (s : string) : string := padStart s (15 + slen s / 2).

Definition header_lines (storeName : string) (companyAddress : option string)
  : list string :=
  [rule_eq; centered storeName]
  ++ (match companyAddress with
      | Some a => if String.eqb a "" then [] else [centered a]
      | None => []
      end)
  ++ [rule_eq; ""; "QTY  ITEM                  TOTAL"; rule_dash].

Definition max_name_length (qty itemTotal : string) : Z :=
  32 - slen qty - slen itemTotal - 2.

Definition continuation_row (maxNameLength : Z) (l : string) : string :=
  "    " ++ padEnd l (maxNameLength + 3).

(** The rows of one line item. *)
Definition item_rows_of (currency : string) (li : line_item)
  : option (list string) :=
  qty <- js_toString_method (li_quantity li);
  let itemTotal := currency ++ to_fixed2 (li_total li) in
  let maxNameLength := max_name_length qty itemTotal in
  let nameLines := wrapText (li_name li) maxNameLength in
  match nameLines with
  | [] => None   (* nameLines[0] is undefined and has no padEnd *)
  | first :: rest =>
      Some ((padEnd qty 3 ++ " " ++ padEnd first maxNameLength ++ " "
               ++ padStart itemTotal 7)
            :: map (continuation_row maxNameLength) rest)
  end.

Fixpoint item_rows (currency : string) (lis : list line_item)
  : option (list string) :=
  match lis with
  | [] => Some []
  | li :: rest =>
      r <- item_rows_of currency li;
      rs <- item_rows currency rest;
      Some (r ++ rs)%list
  end.

Definition discount_label (ds : discount_spec) : string :=
  if is_percentage ds then "Discount (" ++ num_to_string (dvalue ds) ++ "%)"
  else "Discount".

Definition subtotal_line (currency : string) (t : totals) : string :=
  "Subtotal: " ++ padStart (currency ++ to_fixed2 (t_subtotal t)) 22.

Definition discount_line (currency : string) (ds : discount_spec) (t : totals)
  : string :=
  let label := discount_label ds in
  label ++ ": "
    ++ padStart ("-" ++ currency ++ to_fixed2 (t_discountAmount t)) (29 - slen label).

Definition rate_line (label currency : string) (rate amount : num) : string :=
  label ++ " (" ++ to_fixed2 (num_mul rate (Dec 100 0)) ++ "%): "
    ++ padStart (currency ++ to_fixed2 amount) 20.

Definition summary_lines (currency : string) (d : option discount_spec)
  (taxRate vatRate : num) (t : totals) : option (list string) :=
  disc <- (if num_gt0 (t_discountAmount t) then
             match d with
             | Some ds => Some [discount_line currency ds t]
             | None => None   (* discount.type on undefined *)
             end
           else Some []);
  Some ([subtotal_line currency t] ++ disc
        ++ (if num_gt0 (t_vat t) then [rate_line "VAT" currency vatRate (t_vat t)] else [])
        ++ (if num_gt0 (t_tax t) then [rate_line "Tax" currency taxRate (t_tax t)] else []))%list.

Definition footer_lines (currency : string) (t : totals) : list string :=
  [rule_dash; "TOTAL: " ++ padStart (currency ++ to_fixed2 (t_total t)) 25; "";
   rule_eq; "   Thank you for your purchase!   "; rule_eq].

Definition rd_currency (rd : receipt_data) : string := default "$" (currency rd).
Definition rd_taxRate (rd : receipt_data) : num := default num_zero (taxRate rd).
Definition rd_vatRate (rd : receipt_data) : num := default num_zero (vatRate rd).

(** The totals [generateReceipt] computes from the subtotal. *)
Definition receipt_totals (rd : receipt_data) (subtotal : num) : totals :=
  compute_totals subtotal (discount rd) (rd_taxRate rd) (rd_vatRate rd).

(** The output lines of [generateReceipt] (each is followed by a newline in
    the returned string) and the warnings it writes. *)
Definition receipt_lines (rd : receipt_data) : option (list string * list string) :=
  let cur := rd_currency rd in
  c <- calculateLineItems (items rd);
  let '(lineItems, subtotal, warnings) := c in
  let t := receipt_totals rd subtotal in
  rows <- item_rows cur lineItems;
  summary <- summary_lines cur (discount rd) (rd_taxRate rd) (rd_vatRate rd) t;
  Some (header_lines (default "YOUR STORE NAME" (storeName rd)) (companyAddress rd)
        ++ rows ++ [""; rule_dash] ++ summary ++ footer_lines cur t, warnings)%list.

Definition newline : string := String (ascii_of_nat 10) "".

(** [generateReceipt(receiptData)]: the returned string and the warnings. *)
Definition generateReceipt (rd : receipt_data) : option (string * list string) :=
  r <- receipt_lines rd;
  Some (String.concat "" (map (fun l => l ++ newline) (fst r)), snd r).

(** ** [generateReceiptImage] (the Node path) *)

(** [ctx.textAlign] of a [fillText] call. *)
Inductive align : Type := ALeft | ARight | ACenter.

(** A drawing call on the temporary canvas, with the [y] it is made at
    ([textBaseline] is ['top']). *)
Inductive draw_cmd : Type :=
| FillRect (y : Z) (h : Z)     (* [fillRect(0, y, canvasWidth, h)] in white *)
| FillText (text : string) (x : Z) (a : align) (y : Z)
| StrokeLine (y : Z)           (* from [x = padding] to [canvasWidth - padding] *)
| DrawLogo (y : Z)             (* 80 high, centered *)
| DrawQr (size : Z) (y : Z).   (* centered *)

Definition cmd_y (c : draw_cmd) : Z :=
  match c with
  | FillRect y _ | FillText _ _ _ y | StrokeLine y | DrawLogo y | DrawQr _ y => y
  end.

Record qr_code : Type := mkQr {
  qrData : option string;
  qrSize : option Z
}.

(** The fields of the receipt data only the image reads. *)
Record image_options : Type := mkImageOptions {
  logoPath : option string;
  qrCode : option qr_code
}.

(** Truthiness of an optional string field. *)
Definition truthy_str (o : option string) : bool :=
  match o with Some s => negb (String.eqb s "") | None => false end.

(** [qrCode && qrCode.data] *)
Definition qr_active (q : option qr_code) : bool :=
  match q with Some qc => truthy_str (qrData qc) | None => false end.

(** [qrCodeSize]: [qrCode.size || 120] when a QR code is drawn, else 0. *)
Definition qr_code_size (q : option qr_code) : Z :=
  match q with
  | Some qc =>
      if truthy_str (qrData qc) then
        match qrSize qc with
        | Some n => if n =? 0 then 120 else n
        | None => 120
        end
      else 0
  | None => 0
  end.

(** [qrCodeHeight] *)
Definition qr_code_height (q : option qr_code) : Z :=
  if qr_active q then qr_code_size q + 20 else 0.

Definition canvasWidth : Z := 450.
Definition padding : Z := 20.
Definition textLineHeight : Z := 20.

(** [currentY] and the calls made so far on [ctx]. *)
Record canvas_state : Type := mkCanvas {
  currentY : Z;
  drawn : list draw_cmd
}.

(** A call made at [currentY]. *)
Definition draw (c : Z -> draw_cmd) (st : canvas_state) : canvas_state :=
  mkCanvas (currentY st) (drawn st ++ [c (currentY st)]).

(** [currentY += d] *)
Definition advance (d : Z) (st : canvas_state) : canvas_state :=
  mkCanvas (currentY st + d) (drawn st).

Definition drawLine (st : canvas_state) : canvas_state :=
  advance textLineHeight (draw (fun y => StrokeLine (y + textLineHeight / 2)) st).

Definition drawSubTotalLine (label value : string) (st : canvas_state)
  : canvas_state :=
  advance textLineHeight
    (draw (FillText value (canvasWidth - padding) ARight)
       (draw (FillText label padding ALeft) st)).

(** The logo, and the warning written when it does not load. *)
Definition draw_logo (logoError : string -> option string)
  (logoPath : option string) (st : canvas_state) : canvas_state * list string :=
  match logoPath with
  | Some p =>
      if String.eqb p "" then (st, [])
      else match logoError p with
           | None => (advance (80 + 10) (draw DrawLogo st), [])
           | Some msg =>
               (st, ["Could not load logo image at path: " ++ p ++ ". Error: " ++ msg])
           end
  | None => (st, [])
  end.

(** Store name and address. *)
Definition draw_store (storeName : string) (companyAddress : option string)
  (st : canvas_state) : canvas_state :=
  let st1 := advance 30 (draw (FillText storeName (canvasWidth / 2) ACenter) st) in
  let st2 := match companyAddress with
             | Some a =>
                 if String.eqb a "" then st1
                 else advance 20 (draw (FillText a (canvasWidth / 2) ACenter) st1)
             | None => st1
             end in
  advance 10 st2.

(** Items header. *)
Definition draw_items_header (st : canvas_state) : canvas_state :=
  drawLine
    (advance textLineHeight
       (draw (FillText "TOTAL" (canvasWidth - padding) ARight)
          (draw (FillText "QTY  ITEM" padding ALeft) (drawLine st)))).

Section ReceiptImage.

(** [ctx.measureText(s).width] in [DEFAULT_FONT]. *)
Variable measureText : string -> Q.

Definition image_max_name_width (priceText qtyText : string) : Q :=
  (inject_Z (canvasWidth - padding * 2) - measureText priceText
   - measureText qtyText - 15)%Q.

(** One word of the auto-breaking loop of the items. *)
Definition image_wrap_step (maxNameWidth : Q) (st : list string * string)
  (word : string) : list string * string :=
  let '(nameLines, currentLine) := st in
  let testLine := if String.eqb currentLine "" then word
                  else currentLine ++ " " ++ word in
  if (negb (Qle_bool (measureText testLine) maxNameWidth)
      && (0 <? slen currentLine))%bool
  then ((nameLines ++ [trim currentLine])%list, word ++ " ")
  else (nameLines, testLine ++ " ").

Definition image_name_lines (name : string) (maxNameWidth : Q) : list string :=
  let '(nameLines, currentLine) :=
    fold_left (image_wrap_step maxNameWidth) (split_on " " name) ([], "") in
  (nameLines ++ [trim currentLine])%list.

(** The rows [nameLines[1..]]. *)
Fixpoint draw_name_rest (rest : list string) (st : canvas_state) : canvas_state :=
  match rest with
  | [] => st
  | l :: ls =>
      draw_name_rest ls
        (advance textLineHeight (draw (FillText ("   " ++ l) padding ALeft) st))
  end.

(** One line item; [${item.quantity}] is ToString, which throws on a
    Symbol. *)
Definition draw_item (currency : string) (st : canvas_state) (li : line_item)
  : option canvas_state :=
  q <- js_ToString (li_quantity li);
  let priceText := currency ++ to_fixed2 (li_total li) in
  let qtyText := q ++ "x" in
  let maxNameWidth := image_max_name_width priceText qtyText in
  let nameLines := image_name_lines (li_name li) maxNameWidth in
  let st1 := advance textLineHeight
               (draw (FillText priceText (canvasWidth - padding) ARight)
                  (draw (FillText (qtyText ++ " " ++ hd "undefined" nameLines)
                           padding ALeft) st)) in
  Some (draw_name_rest (tl nameLines) st1).

Fixpoint draw_items (currency : string) (lis : list line_item) (st : canvas_state)
  : option canvas_state :=
  match lis with
  | [] => Some st
  | li :: rest => st' <- draw_item currency st li; draw_items currency rest st'
  end.

End ReceiptImage.

(** The sub-price body. *)
Definition draw_summary (currency : string) (d : option discount_spec)
  (taxRate vatRate : num) (t : totals) (st : canvas_state) : option canvas_state :=
  let st1 := drawSubTotalLine "Subtotal" (currency ++ to_fixed2 (t_subtotal t)) st in
  st2 <- (if num_gt0 (t_discountAmount t) then
            match d with
            | Some ds =>
                Some (drawSubTotalLine (discount_label ds)
                        ("-" ++ currency ++ to_fixed2 (t_discountAmount t)) st1)
            | None => None   (* discount.type on undefined *)
            end
          else Some st1);
  let st3 := if num_gt0 (t_vat t)
             then drawSubTotalLine
                    ("VAT (" ++ to_fixed2 (num_mul vatRate (Dec 100 0)) ++ "%)")
                    (currency ++ to_fixed2 (t_vat t)) st2
             else st2 in
  Some (if num_gt0 (t_tax t)
        then drawSubTotalLine
               ("Tax (" ++ to_fixed2 (num_mul taxRate (Dec 100 0)) ++ "%)")
               (currency ++ to_fixed2 (t_tax t)) st3
        else st3).

(** The TOTAL line and the thank-you message. *)
Definition draw_footer (currency : string) (t : totals) (st : canvas_state)
  : canvas_state :=
  let st1 := advance 10
               (drawSubTotalLine "TOTAL" (currency ++ to_fixed2 (t_total t))
                  (drawLine st)) in
  advance (textLineHeight + 10)
    (draw (FillText "Thank you for your purchase!" (canvasWidth / 2) ACenter)
       (advance textLineHeight st1)).

(** The QR code; [qrLoads data size] says whether [QRCode.toDataURL] and
    loading its image succeed (otherwise the returned promise rejects). *)
Definition draw_qr (qrLoads : string -> Z -> bool) (q : option qr_code)
  (st : canvas_state) : option canvas_state :=
  match q with
  | Some qc =>
      match qrData qc with
      | Some data =>
          if String.eqb data "" then Some st
          else let size := qr_code_size q in
               if qrLoads data size
               then Some (advance (size + 10) (draw (DrawQr size) st))
               else None
      | None => Some st
      end
  | None => Some st
  end.

(** [generateReceiptImage(receiptData)] under Node, up to the copy into the
    final canvas: the drawing calls on the temporary canvas (the white
    background first), its height [estimatedHeight], the height
    [currentY + padding] of the final canvas, and the warnings written.
    The final canvas is filled white and gets the temporary canvas drawn
    at (0, 0) (lines 336-339); the creation of the two canvases and the
    writing of the PNG file (lines 187, 331, 342-343) are not modelled. *)
Definition generateReceiptImage (measureText : string -> Q)
  (logoError : string -> option string) (qrLoads : string -> Z -> bool)
  (rd : receipt_data) (o : image_options)
  : option (list draw_cmd * Z * Z * list string) :=
  let cur := rd_currency rd in
  c <- calculateLineItems (items rd);
  let '(lineItems, subtotal, warnings) := c in
  let t := receipt_totals rd subtotal in
  let estimatedHeight :=
    500 + Z.of_nat (List.length lineItems) * textLineHeight * 2
    + qr_code_height (qrCode o) in
  let background := mkCanvas padding [FillRect 0 estimatedHeight] in
  let '(st1, logoWarnings) := draw_logo logoError (logoPath o) background in
  let st2 := draw_items_header
               (draw_store (default "YOUR STORE NAME" (storeName rd))
                  (companyAddress rd) st1) in
  st3 <- draw_items measureText cur lineItems st2;
  st4 <- draw_summary cur (discount rd) (rd_taxRate rd) (rd_vatRate rd) t
           (drawLine st3);
  st5 <- draw_qr qrLoads (qrCode o) (draw_footer cur t st4);
  Some (drawn st5, estimatedHeight, currentY st5 + padding,
        (warnings ++ logoWarnings)%list).

(** ** Readings of the specification, compared with the code above *)

(** The greedy word wrap as the specification words it: the first word
    opens the line; a next word joins when [currentLine + " " + nextWord]
    fits the budget, otherwise the line is flushed and the word opens a
    new one. *)
Definition greedy_step (maxWidth : Z) (st : list string * option string)
  (w : string) : list string * option string :=
  let '(lines, cur) := st in
  match cur with
  | None => (lines, Some w)
  | Some c =>
      if slen (c ++ " " ++ w) <=? maxWidth then (lines, Some (c ++ " " ++ w))
      else ((lines ++ [c])%list, Some w)
  end.

Definition greedy_lines (words : list string) (maxWidth : Z) : list string :=
  let '(lines, cur) := fold_left (greedy_step maxWidth) words ([], None) in
  (lines ++ [default "" cur])%list.

(** The wrapped name lines the text receipt computes for a line item. *)
Definition item_name_lines (currency : string) (li : line_item) : list string :=
  match js_toString_method (li_quantity li) with
  | Some qty =>
      wrapText (li_name li)
        (max_name_length qty (currency ++ to_fixed2 (li_total li)))
  | None => []
  end.

Fixpoint list_sum (l : list nat) : nat :=
  match l with [] => O | x :: r => (x + list_sum r)%nat end.

Fixpoint all_ws (s : string) : bool :=
  match s with
  | EmptyString => true
  | String c r => (is_ws c && all_ws r)%bool
  end.

Fixpoint all_digits (s : string) : bool :=
  match s with
  | EmptyString => true
  | String c r => (is_digit c && all_digits r)%bool
  end.

(** The test of [calculateLineItems] that sends an item to the zero
    default: its quantity or price parses to NaN or to a negative number. *)
Definition item_invalid (it : item) : bool :=
  match parseFloat (quantity it), parseFloat (price it) with
  | Some q, Some p => (num_isNaN q || num_isNaN p || num_lt0 q || num_lt0 p)%bool
  | _, _ => false
  end.

Definition is_symbol (v : jsval) : bool :=
  match v with JSym _ => true | _ => false end.

Definition is_bigint (v : jsval) : bool :=
  match v with JBigInt _ => true | _ => false end.

Fixpoint no_ws (s : string) : bool :=
  match s with
  | EmptyString => true
  | String c r => (negb (is_ws c) && no_ws r)%bool
  end.

(** The pair of states related at each step of [wrapText] and of the
    greedy wrap. *)
Definition wrap_rel (code : list string * string) (spec : list string * option string)
  : Prop :=
  fst code = map trim (fst spec)
  /\ snd code = match snd spec with None => "" | Some c => c ++ " " end.

(** The greedy wrap continued from a state. *)
Definition greedy_result (maxWidth : Z) (st : list string * option string)
  (words : list string) : list string :=
  let '(lines, cur) := fold_left (greedy_step maxWidth) words st in
  (lines ++ [default "" cur])%list.

(** The greedy wrap with a separator and a fitting test for the joined
    line. *)
Definition greedy_sep_step (sep : string) (fits : string -> bool)
  (st : list string * option string) (w : string) : list string * option string :=
  let '(lines, cur) := st in
  match cur with
  | None => (lines, Some w)
  | Some c =>
      if fits (c ++ sep ++ w) then (lines, Some (c ++ sep ++ w))
      else ((lines ++ [c])%list, Some w)
  end.

Definition greedy_sep_lines (sep : string) (fits : string -> bool)
  (words : list string) : list string :=
  let '(lines, cur) := fold_left (greedy_sep_step sep fits) words ([], None) in
  (lines ++ [default "" cur])%list.

(** Every space doubled. *)
Fixpoint double_spaces (s : string) : string :=
  match s with
  | EmptyString => ""
  | String x r =>
      if Ascii.eqb x " " then "  " ++ double_spaces r
      else String x (double_spaces r)
  end.

(** The name lines the image draws for a line item. *)
Definition image_item_name_lines (measureText : string -> Q) (currency : string)
  (li : line_item) : list string :=
  match js_ToString (li_quantity li) with
  | Some q =>
      image_name_lines measureText (li_name li)
        (image_max_name_width measureText (currency ++ to_fixed2 (li_total li))
           (q ++ "x"))
  | None => []
  end.

(** The logo warning [generateReceiptImage] writes. *)
Definition logo_warnings (logoError : string -> option string)
  (logoPath : option string) : list string :=
  snd (draw_logo logoError logoPath (mkCanvas padding [])).

(** The height the logo takes. *)
Definition logo_height (logoError : string -> option string)
  (logoPath : option string) : Z :=
  match logoPath with
  | Some p =>
      if String.eqb p "" then 0
      else match logoError p with None => 90 | Some _ => 0 end
  | None => 0
  end.

(** ** Sample receipts *)

(** The receipt of [sample/test2.js] (with the currency "$"). *)
Definition coffee_shop : receipt_data :=
  mkReceipt (Some "The Corner Coffee Shop") (Some "123 Main St, Anytown")
    [mkItem "Large Latte" (JNum (Dec 2 0)) (JNum (Dec 450 (-2)));
     mkItem "Blueberry Muffin - Freshly Baked" (JNum (Dec 1 0)) (JNum (Dec 300 (-2)));
     mkItem "Loyalty Discount Item" (JNum (Dec 1 0)) (JNum (Dec 0 (-2)))]
    (Some (Dec 5 (-2))) None (Some (mkDiscount "percentage" (Dec 10 0))) None.

Definition coffee_shop_lines : list string :=
  match receipt_lines coffee_shop with Some (l, _) => l | None => [] end.

Definition coffee_shop_warnings : list string :=
  match receipt_lines coffee_shop with Some (_, w) => w | None => [] end.

(** Subtotal 100, a 10% discount and an 8% tax. *)
Definition hundred_receipt : receipt_data :=
  mkReceipt None None [mkItem "Item" (JNum (Dec 1 0)) (JNum (Dec 100 0))]
    (Some (Dec 8 (-2))) None (Some (mkDiscount "percentage" (Dec 10 0))) None.

(** Subtotal 4.50 with a fixed discount of 5.00, an 8% tax and a 20% VAT. *)
Definition over_discount_receipt : receipt_data :=
  mkReceipt None None [mkItem "Muffin" (JNum (Dec 1 0)) (JNum (Dec 450 (-2)))]
    (Some (Dec 8 (-2))) (Some (Dec 20 (-2)))
    (Some (mkDiscount "fixed" (Dec 500 (-2)))) None.

(** An item priced at [+Infinity]: [isNaN] is false and it is not
    negative. *)
Definition infinity_item : item := mkItem "Lamp" (JNum PInf) (JNum (Dec 1 0)).

(** An item whose quantity is a Symbol. *)
Definition symbol_receipt : receipt_data :=
  mkReceipt None None [mkItem "Tea" (JSym "qty") (JNum (Dec 1 0))]
    None None None None.

(** An item whose quantity is the BigInt [2n]. *)
Definition bigint_receipt : receipt_data :=
  mkReceipt None None [mkItem "Tea" (JBigInt 2) (JNum (Dec 1 0))]
    None None None None.

(** A fixed discount of [-5]. *)
Definition negative_discount_receipt : receipt_data :=
  mkReceipt None None [mkItem "Muffin" (JNum (Dec 1 0)) (JNum (Dec 450 (-2)))]
    None None (Some (mkDiscount "fixed" (Dec (-5) 0))) None.

(** String fields, a non-numeric quantity and a negative price. *)
Definition mixed_items : list item :=
  [mkItem "Milk" (JStr "2") (JStr "3.50");
   mkItem "Bread" (JStr "two") (JNum (Dec 275 (-2)));
   mkItem "Eggs" (JNum (Dec 1 0)) (JNum (Dec (-499) (-2)))].

(** The line item of Milk, 2 at 3.50, of the sample in [index.js]. *)
Definition milk_line_item : line_item :=
  mkLineItem "Milk" (JNum (Dec 2 0)) (JNum (Dec 350 (-2))) (Dec 700 (-2)).

(** A line item of total [1e21]. *)
Definition gold_line_item : line_item :=
  mkLineItem "Gold" (JNum (Dec 1 21)) (JNum (Dec 1 0)) (Dec 1 21).

(** Widths of [14px "Courier New"]: 8.4 pixels a character. *)
Definition courier14 (s : string) : Q := (inject_Z (slen s) * (84 # 10))%Q.

(** A receipt whose one item has a name of 60 words. *)
Definition long_name_receipt : receipt_data :=
  mkReceipt (Some "Tea Room") None
    [mkItem (String.concat " " (repeat "Chamomile" 60))
            (JNum (Dec 1 0)) (JNum (Dec 1250 (-2)))]
    None None None None.

Definition no_image_options : image_options := mkImageOptions None None.

(** ** Lemmas on strings *)

Lemma str_app_assoc : forall a b c : string, (a ++ b) ++ c = a ++ (b ++ c).
Proof. induction a; intros; simpl; [reflexivity | now rewrite IHa]. Qed.

Lemma str_app_nil_r : forall a : string, a ++ "" = a.
Proof. induction a; simpl; [reflexivity | now rewrite IHa]. Qed.

Lemma str_length_app : forall a b : string,
  String.length (a ++ b) = (String.length a + String.length b)%nat.
Proof. induction a; intros; simpl; [reflexivity | now rewrite IHa]. Qed.

Lemma trim_end_app_space : forall s, trim_end (s ++ " ") = trim_end s.
Proof.
  induction s as [|c r IH]; [reflexivity|].
  simpl. rewrite IH. reflexivity.
Qed.

Lemma trim_app_space : forall s, trim (s ++ " ") = trim s.
Proof.
  unfold trim. induction s as [|c r IH]; [reflexivity|].
  simpl. destruct (is_ws c); [exact IH|].
  change (String c (r ++ " ")) with (String c r ++ " ").
  apply trim_end_app_space.
Qed.

Lemma trim_empty : trim "" = "".
Proof. reflexivity. Qed.

(** ** wrapText refines the greedy wrap *)

Lemma wrap_step_rel : forall maxLength code spec w,
  wrap_rel code spec ->
  wrap_rel (wrap_step maxLength code w) (greedy_step maxLength spec w).
Proof.
  intros maxLength [lc cl] [ls [c|]] w [H1 H2]; simpl in H1, H2; subst.
  - unfold wrap_step, greedy_step.
    rewrite str_app_assoc.
    assert (Hpos : (0 <? slen (c ++ " ")) = true).
    { apply Z.ltb_lt. unfold slen. rewrite str_length_app. simpl. lia. }
    rewrite Hpos, Bool.andb_true_r.
    destruct (maxLength <? slen (c ++ " " ++ w)) eqn:E.
    + assert (E' : (slen (c ++ " " ++ w) <=? maxLength) = false)
        by (apply Z.leb_gt; apply Z.ltb_lt in E; lia).
      rewrite E'. split; simpl.
      * rewrite map_app. simpl. now rewrite trim_app_space.
      * reflexivity.
    + assert (E' : (slen (c ++ " " ++ w) <=? maxLength) = true)
        by (apply Z.leb_le; apply Z.ltb_ge in E; lia).
      rewrite E'. split; simpl; [reflexivity|].
      rewrite !str_app_assoc. reflexivity.
  - unfold wrap_step, greedy_step. simpl.
    rewrite Bool.andb_false_r. split; reflexivity.
Qed.

Lemma wrap_fold_rel : forall maxLength words code spec,
  wrap_rel code spec ->
  wrap_rel (fold_left (wrap_step maxLength) words code)
           (fold_left (greedy_step maxLength) words spec).
Proof.
  intros maxLength words. induction words as [|w ws IH]; intros code spec H;
    simpl; [exact H|].
  apply IH, wrap_step_rel, H.
Qed.

Lemma wrapText_greedy : forall text maxLength,
  wrapText text maxLength = map trim (greedy_lines (split_on " " text) maxLength).
Proof.
  intros. unfold wrapText, greedy_lines.
  pose proof (wrap_fold_rel maxLength (split_on " " text) ([], "") ([], None))
    as H.
  destruct (fold_left (wrap_step maxLength) (split_on " " text) ([], ""))
    as [lc cl].
  destruct (fold_left (greedy_step maxLength) (split_on " " text) ([], None))
    as [ls cur].
  destruct H as [H1 H2]; [split; reflexivity|]. simpl in H1, H2; subst.
  rewrite map_app. simpl. destruct cur; simpl; [now rewrite trim_app_space|].
  reflexivity.
Qed.

Lemma greedy_step_keeps : forall maxWidth st w x,
  In x (fst st) -> In x (fst (greedy_step maxWidth st w)).
Proof.
  intros maxWidth [lines [c|]] w x H; simpl in *; [|exact H].
  destruct (_ <=? maxWidth); simpl; [exact H|].
  apply in_or_app. now left.
Qed.

Lemma greedy_result_keeps : forall maxWidth words st x,
  In x (fst st) -> In x (greedy_result maxWidth st words).
Proof.
  unfold greedy_result. intros maxWidth words.
  induction words as [|w ws IH]; intros [lines cur] x H; simpl in *.
  - apply in_or_app. now left.
  - apply (IH (greedy_step maxWidth (lines, cur) w)).
    apply (greedy_step_keeps maxWidth (lines, cur)). exact H.
Qed.

Lemma greedy_step_wide : forall maxWidth st w,
  maxWidth < slen w ->
  exists lines, greedy_step maxWidth st w = (lines, Some w)
                /\ forall x, In x (fst st) -> In x lines.
Proof.
  intros maxWidth [lines [c|]] w Hw; simpl.
  - assert (E : (slen (c ++ String " " w) <=? maxWidth) = false).
    { apply Z.leb_gt. unfold slen in *. rewrite !str_length_app. simpl. lia. }
    rewrite E. eexists; split; [reflexivity|].
    intros x Hx. apply in_or_app. now left.
  - eexists; split; [reflexivity|]. auto.
Qed.

Lemma greedy_result_wide : forall maxWidth words st w,
  In w words -> maxWidth < slen w -> In w (greedy_result maxWidth st words).
Proof.
  intros maxWidth words. induction words as [|a ws IH];
    intros st w Hin Hw; [destruct Hin|].
  destruct Hin as [Heq|Hin]; [subst a|].
  - destruct (greedy_step_wide maxWidth st w Hw) as [lines [E _]].
    unfold greedy_result. simpl. rewrite E.
    destruct ws as [|b ws']; simpl.
    + apply in_or_app. right. now left.
    + assert (E2 : (slen (w ++ String " " b) <=? maxWidth) = false).
      { apply Z.leb_gt. unfold slen in *. rewrite !str_length_app. simpl. lia. }
      rewrite E2.
      apply (greedy_result_keeps maxWidth ws' ((lines ++ [w])%list, Some b)).
      simpl. apply in_or_app. right. now left.
  - simpl. apply IH; assumption.
Qed.

Lemma wrapText_not_nil : forall text maxLength, wrapText text maxLength <> [].
Proof.
  intros. unfold wrapText.
  destruct (fold_left (wrap_step maxLength) (split_on " " text) ([], "")).
  intro H. symmetry in H. revert H. apply app_cons_not_nil.
Qed.

(** ** Rows of the items section *)

Lemma item_rows_of_shape : forall cur li qty,
  js_toString_method (li_quantity li) = Some qty ->
  exists row rest, item_rows_of cur li = Some (row :: rest)
                   /\ List.length (row :: rest) = List.length (item_name_lines cur li).
Proof.
  intros cur li qty H. unfold item_rows_of, item_name_lines. rewrite H. simpl.
  pose proof (wrapText_not_nil (li_name li)
    (max_name_length qty (cur ++ to_fixed2 (li_total li)))) as NE.
  destruct (wrapText (li_name li)
    (max_name_length qty (cur ++ to_fixed2 (li_total li)))) as [|first rest];
    [congruence|].
  do 2 eexists. split; [reflexivity|]. simpl. now rewrite length_map.
Qed.

Lemma item_rows_of_some : forall cur li r,
  item_rows_of cur li = Some r ->
  exists qty, js_toString_method (li_quantity li) = Some qty.
Proof.
  intros cur li r H. unfold item_rows_of in H.
  destruct (js_toString_method (li_quantity li)) as [qty|]; [now exists qty|].
  discriminate.
Qed.

Lemma item_rows_of_length : forall cur li r,
  item_rows_of cur li = Some r -> List.length r = List.length (item_name_lines cur li).
Proof.
  intros cur li r H.
  destruct (item_rows_of_some cur li r H) as [qty Hq].
  destruct (item_rows_of_shape cur li qty Hq) as [row [rest [E L]]].
  rewrite H in E. injection E as E. subst r. exact L.
Qed.

Lemma item_rows_length : forall cur lis rows,
  item_rows cur lis = Some rows ->
  List.length rows = list_sum (map (fun li => List.length (item_name_lines cur li)) lis).
Proof.
  intros cur lis. induction lis as [|li rest IH]; intros rows H; simpl in H.
  - injection H as <-. reflexivity.
  - destruct (item_rows_of cur li) as [r|] eqn:E1; [|discriminate].
    simpl in H. destruct (item_rows cur rest) as [rs|] eqn:E2; [|discriminate].
    simpl in H. injection H as <-. simpl.
    rewrite length_app, (item_rows_of_length cur li r E1), (IH rs eq_refl).
    reflexivity.
Qed.

(** ** Line items produced by [calculateLineItems] *)

Lemma parseFloat_not_number_like : forall v x,
  parseFloat v = Some x -> num_isNaN x = false ->
  v <> JUndef /\ v <> JNull /\ (forall b, v <> JBool b).
Proof.
  intros v x H N.
  destruct v as [| |b|n|s|d|z]; simpl in H.
  - injection H as <-. vm_compute in N. discriminate.
  - injection H as <-. vm_compute in N. discriminate.
  - injection H as <-. destruct b; vm_compute in N; discriminate.
  - repeat split; try discriminate; intros b E; discriminate.
  - repeat split; try discriminate; intros b E; discriminate.
  - repeat split; try discriminate; intros b E; discriminate.
  - repeat split; try discriminate; intros b E; discriminate.
Qed.

Lemma calc_item_printable : forall it li w,
  calc_item it = Some (li, w) ->
  exists qty, js_toString_method (li_quantity li) = Some qty.
Proof.
  intros it li w H. unfold calc_item in H.
  destruct (parseFloat (quantity it)) as [q|] eqn:Eq; [|discriminate]. simpl in H.
  destruct (parseFloat (price it)) as [p|] eqn:Ep; [|discriminate]. simpl in H.
  destruct (num_isNaN q || num_isNaN p || num_lt0 q || num_lt0 p)%bool eqn:Bad.
  - injection H as <- _. eexists. reflexivity.
  - destruct (js_mul (quantity it) (price it)) as [[t|zt]|]; simpl in H;
      try discriminate.
    injection H as <- _. simpl.
    apply Bool.orb_false_elim in Bad as [Bad _].
    apply Bool.orb_false_elim in Bad as [Bad _].
    apply Bool.orb_false_elim in Bad as [NQ _].
    destruct (parseFloat_not_number_like _ _ Eq NQ) as [U [N B]].
    destruct (quantity it) as [| |b|n|s|d|z]; simpl;
      try (eexists; reflexivity); try congruence.
Qed.

Lemma map_items_printable : forall its lis w,
  map_items its = Some (lis, w) ->
  forall li, In li lis -> exists qty, js_toString_method (li_quantity li) = Some qty.
Proof.
  induction its as [|it rest IH]; intros lis w H li Hin; simpl in H.
  - injection H as <- _. destruct Hin.
  - destruct (calc_item it) as [[l1 w1]|] eqn:E1; [|discriminate]. simpl in H.
    destruct (map_items rest) as [[ls ws]|] eqn:E2; [|discriminate].
    simpl in H. injection H as <- _.
    destruct Hin as [<-|Hin].
    + exact (calc_item_printable it l1 w1 E1).
    + exact (IH ls ws eq_refl li Hin).
Qed.

Lemma calculateLineItems_printable : forall its lis sub w,
  calculateLineItems its = Some (lis, sub, w) ->
  forall li, In li lis -> exists qty, js_toString_method (li_quantity li) = Some qty.
Proof.
  intros its lis sub w H. unfold calculateLineItems in H.
  destruct (map_items its) as [[ls ws]|] eqn:E; [|discriminate].
  simpl in H. injection H as <- _ _. exact (map_items_printable its ls ws E).
Qed.

Lemma item_rows_some : forall cur lis,
  (forall li, In li lis -> exists qty, js_toString_method (li_quantity li) = Some qty) ->
  exists rows, item_rows cur lis = Some rows.
Proof.
  intros cur lis. induction lis as [|li rest IH]; intros H; simpl.
  - eexists; reflexivity.
  - destruct (H li (or_introl eq_refl)) as [qty Hq].
    destruct (item_rows_of_shape cur li qty Hq) as [row [r [E _]]].
    rewrite E. simpl.
    destruct IH as [rs Hrs]; [intros l Hl; apply H; now right|].
    rewrite Hrs. simpl. eexists; reflexivity.
Qed.

(** ** Structure of the output *)

Lemma receipt_lines_inv : forall rd lines w,
  receipt_lines rd = Some (lines, w) ->
  exists lis sub rows summary,
    calculateLineItems (items rd) = Some (lis, sub, w)
    /\ item_rows (rd_currency rd) lis = Some rows
    /\ summary_lines (rd_currency rd) (discount rd) (rd_taxRate rd) (rd_vatRate rd)
         (receipt_totals rd sub) = Some summary
    /\ lines = (header_lines (default "YOUR STORE NAME" (storeName rd)) (companyAddress rd)
                ++ rows ++ [""; rule_dash] ++ summary
                ++ footer_lines (rd_currency rd) (receipt_totals rd sub))%list.
Proof.
  intros rd lines w H. unfold receipt_lines in H.
  destruct (calculateLineItems (items rd)) as [[[lis sub] w0]|] eqn:E1;
    [|discriminate].
  simpl in H.
  destruct (item_rows (rd_currency rd) lis) as [rows|] eqn:E2; [|discriminate].
  simpl in H.
  destruct (summary_lines (rd_currency rd) (discount rd) (rd_taxRate rd)
              (rd_vatRate rd) (receipt_totals rd sub)) as [summary|] eqn:E3;
    [|discriminate].
  simpl in H. injection H as <- <-.
  exists lis, sub, rows, summary. repeat split; assumption || reflexivity.
Qed.


(** ** Number parsing: a trailing run of whitespace changes nothing *)

Lemma ws_not_digit : forall c, is_ws c = true -> is_digit c = false.
Proof.
  intros c H. unfold is_ws, is_digit in *.
  destruct (nat_of_ascii c) as [|n] eqn:E; [reflexivity|].
  repeat (apply Bool.orb_true_iff in H; destruct H as [H|H]);
    apply Nat.eqb_eq in H; rewrite H; reflexivity.
Qed.

Ltac ws_neq c H :=
  unfold is_ws in H;
  repeat (apply Bool.orb_true_iff in H; destruct H as [H|H]);
  apply Nat.eqb_eq in H; destruct c as [[] [] [] [] [] [] [] []];
  try discriminate H; reflexivity.

Lemma ws_not_special : forall c, is_ws c = true ->
  Ascii.eqb c "e" = false /\ Ascii.eqb c "E" = false /\ Ascii.eqb c "." = false
  /\ Ascii.eqb c "+" = false /\ Ascii.eqb c "-" = false /\ Ascii.eqb c "I" = false.
Proof. intros c H. repeat split; ws_neq c H. Qed.

Lemma take_digits_app_ws : forall a w, all_ws w = true ->
  take_digits (a ++ w) = (fst (take_digits a), snd (take_digits a) ++ w).
Proof.
  induction a as [|c r IH]; intros w Hw; simpl.
  - destruct w as [|c w']; [reflexivity|].
    simpl in Hw. apply Bool.andb_true_iff in Hw as [Hc _].
    simpl. rewrite (ws_not_digit c Hc). reflexivity.
  - destruct (is_digit c); [|reflexivity].
    rewrite (IH w Hw). destruct (take_digits r). reflexivity.
Qed.

Lemma exponent_part_app_ws : forall x w, all_ws w = true ->
  exponent_part (x ++ w) = (fst (exponent_part x), snd (exponent_part x) ++ w).
Proof.
  intros x w Hw. destruct x as [|c r].
  - destruct w as [|c w']; [reflexivity|]. simpl.
    simpl in Hw. apply Bool.andb_true_iff in Hw as [Hc _].
    destruct (ws_not_special c Hc) as [E1 [E2 _]]. rewrite E1, E2. reflexivity.
  - simpl. destruct (Ascii.eqb c "e" || Ascii.eqb c "E")%bool; [|reflexivity].
    assert (S : exists sg r1,
      (match r ++ w with
       | String c' r' => if Ascii.eqb c' "+" then (1, r')
                         else if Ascii.eqb c' "-" then (-1, r') else (1, r ++ w)
       | EmptyString => (1, r ++ w) end) = (sg, r1 ++ w)
      /\ (match r with
          | String c' r' => if Ascii.eqb c' "+" then (1, r')
                            else if Ascii.eqb c' "-" then (-1, r') else (1, r)
          | EmptyString => (1, r) end) = (sg, r1)).
    { destruct r as [|c' r'].
      - exists 1, "". split; [|reflexivity]. simpl.
        destruct w as [|c'' w']; [reflexivity|].
        simpl in Hw. apply Bool.andb_true_iff in Hw as [Hc _].
        destruct (ws_not_special c'' Hc) as [_ [_ [_ [E4 [E5 _]]]]].
        rewrite E4, E5. reflexivity.
      - simpl. destruct (Ascii.eqb c' "+"); [exists 1, r'; split; reflexivity|].
        destruct (Ascii.eqb c' "-"); [exists (-1), r'; split; reflexivity|].
        exists 1, (String c' r'). split; reflexivity. }
    destruct S as [sg [r1 [S1 S2]]]. rewrite S1, S2.
    rewrite (take_digits_app_ws r1 w Hw). destruct (take_digits r1) as [d r2].
    simpl. destruct (String.eqb d ""); reflexivity.
Qed.

Lemma after_dot_app_ws : forall x w, all_ws w = true ->
  after_dot (x ++ w) = match after_dot x with Some r => Some (r ++ w) | None => None end.
Proof.
  intros x w Hw. destruct x as [|c r]; simpl.
  - destruct w as [|c w']; [reflexivity|].
    simpl in Hw. apply Bool.andb_true_iff in Hw as [Hc _].
    destruct (ws_not_special c Hc) as [_ [_ [E3 _]]]. simpl. rewrite E3. reflexivity.
  - destruct (Ascii.eqb c "."); reflexivity.
Qed.

Lemma prefix_app_ws : forall p x w, all_ws w = true -> no_ws p = true ->
  String.prefix p (x ++ w) = String.prefix p x.
Proof.
  induction p as [|a p' IH]; intros x w Hw Hp; [destruct (x ++ w), x; reflexivity|].
  simpl in Hp. apply Bool.andb_true_iff in Hp as [Ha Hp'].
  destruct x as [|b x']; simpl.
  - destruct w as [|c w']; [reflexivity|].
    simpl in Hw. apply Bool.andb_true_iff in Hw as [Hc _].
    simpl. destruct (ascii_dec a c); [subst; rewrite Hc in Ha; discriminate|reflexivity].
  - destruct (ascii_dec a b); [|reflexivity]. apply IH; assumption.
Qed.

Lemma prefix_length : forall p x, String.prefix p x = true ->
  (String.length p <= String.length x)%nat.
Proof.
  induction p as [|a p' IH]; intros x H; simpl; [lia|].
  destruct x as [|b x']; [discriminate|].
  simpl in H. destruct (ascii_dec a b); [|discriminate].
  simpl. specialize (IH x' H). lia.
Qed.

Lemma substring_full : forall s, substring 0 (String.length s) s = s.
Proof. induction s as [|c r IH]; simpl; [reflexivity | now rewrite IH]. Qed.

Lemma substring_drop_app : forall n s w, (n <= String.length s)%nat ->
  substring n (String.length (s ++ w) - n) (s ++ w)
  = substring n (String.length s - n) s ++ w.
Proof.
  induction n as [|n IH]; intros s w H.
  - rewrite !Nat.sub_0_r, !substring_full. reflexivity.
  - destruct s as [|c r]; simpl in H; [lia|].
    simpl. apply IH. lia.
Qed.

Lemma parse_unsigned_app_ws : forall x w, all_ws w = true ->
  parse_unsigned (x ++ w)
  = match parse_unsigned x with Some (v, r) => Some (v, r ++ w) | None => None end.
Proof.
  intros x w Hw. unfold parse_unsigned.
  rewrite (prefix_app_ws "Infinity" x w Hw eq_refl).
  destruct (String.prefix "Infinity" x) eqn:P.
  - apply prefix_length in P. rewrite substring_drop_app; [reflexivity|].
    simpl in P. exact P.
  - rewrite (take_digits_app_ws x w Hw). destruct (take_digits x) as [d1 r1].
    cbn [fst snd]. rewrite (after_dot_app_ws r1 w Hw).
    destruct (after_dot r1) as [r|].
    + rewrite (take_digits_app_ws r w Hw). destruct (take_digits r) as [d2 r2].
      cbn [fst snd]. destruct (String.eqb d1 "" && String.eqb d2 "")%bool;
        [reflexivity|].
      rewrite (exponent_part_app_ws r2 w Hw). destruct (exponent_part r2).
      reflexivity.
    + destruct (String.eqb d1 ""); [reflexivity|].
      rewrite (exponent_part_app_ws r1 w Hw). destruct (exponent_part r1).
      reflexivity.
Qed.

Lemma parse_decimal_app_ws : forall x w, all_ws w = true ->
  parse_decimal (x ++ w)
  = match parse_decimal x with Some (v, r) => Some (v, r ++ w) | None => None end.
Proof.
  intros x w Hw. destruct x as [|c r].
  - simpl. destruct w as [|c w']; [reflexivity|].
    pose proof Hw as Hw'. simpl in Hw'. apply Bool.andb_true_iff in Hw' as [Hc _].
    destruct (ws_not_special c Hc) as [_ [_ [_ [E4 [E5 _]]]]].
    unfold parse_decimal. rewrite E4, E5.
    exact (parse_unsigned_app_ws "" (String c w') Hw).
  - unfold parse_decimal. cbn [append].
    destruct (Ascii.eqb c "+"); [apply parse_unsigned_app_ws; exact Hw|].
    destruct (Ascii.eqb c "-").
    + rewrite (parse_unsigned_app_ws r w Hw).
      destruct (parse_unsigned r) as [[v r']|]; reflexivity.
    + exact (parse_unsigned_app_ws (String c r) w Hw).
Qed.

Lemma trim_end_split : forall x, exists w, x = trim_end x ++ w /\ all_ws w = true.
Proof.
  induction x as [|c r [w [E Hw]]]; [exists ""; split; reflexivity|].
  simpl. destruct (String.eqb (trim_end r) "") eqn:T; destruct (is_ws c) eqn:C;
    cbn [andb].
  - apply String.eqb_eq in T. rewrite T in E. simpl in E.
    exists (String c w). simpl. rewrite C, Hw, E. split; reflexivity.
  - exists w. simpl. rewrite <- E. split; [reflexivity | exact Hw].
  - exists w. simpl. rewrite <- E. split; [reflexivity | exact Hw].
  - exists w. simpl. rewrite <- E. split; [reflexivity | exact Hw].
Qed.

Lemma digit_in_base_nonneg : forall b c v, digit_in_base b c = Some v -> 0 <= v.
Proof.
  intros b c v H. unfold digit_in_base in H.
  destruct (_ <? b); [|discriminate]. injection H as <-.
  destruct (48 <=? _) eqn:A1; destruct (_ <=? 57) eqn:A2; cbn [andb];
    try (apply Z.leb_le in A1; lia);
  destruct (97 <=? _) eqn:B1; destruct (_ <=? 122) eqn:B2; cbn [andb];
    try (apply Z.leb_le in B1; lia);
  destruct (65 <=? _) eqn:C1; destruct (_ <=? 90) eqn:C2; cbn [andb];
    try (apply Z.leb_le in C1; lia); lia.
Qed.

Lemma base_value_nonneg : forall b s acc v, 0 <= b -> 0 <= acc ->
  base_value b s acc = Some v -> 0 <= v.
Proof.
  intros b s. induction s as [|c r IH]; intros acc v Hb Ha H; simpl in H.
  - injection H as <-. exact Ha.
  - destruct (digit_in_base b c) as [d|] eqn:D; [|discriminate].
    cbn [bind_opt] in H. apply digit_in_base_nonneg in D.
    apply (IH (acc * b + d) v Hb); [nia | exact H].
Qed.

Lemma non_decimal_nonneg : forall t v, non_decimal t = Some v -> num_lt0 v = false.
Proof.
  intros t v H. unfold non_decimal in H.
  destruct t as [|z [|x r]]; try discriminate.
  destruct (Ascii.eqb z "0"); [|discriminate].
  destruct ((base_of_prefix x =? 0) || String.eqb r "")%bool; [discriminate|].
  destruct (base_value (base_of_prefix x) r 0) as [n|] eqn:B; [|discriminate].
  injection H as <-. apply base_value_nonneg in B; [| |lia].
  - simpl. apply Z.ltb_ge. exact B.
  - unfold base_of_prefix. repeat (destruct (_ || _)%bool); lia.
Qed.

(** A string that [Number] reads as negative is read as the same number by
    [parseFloat]. *)
Lemma string_to_number_neg : forall s, num_lt0 (string_to_number s) = true ->
  parse_float_string s = string_to_number s.
Proof.
  intros s H. unfold string_to_number in *.
  destruct (String.eqb (trim s) "") eqn:T; [discriminate|].
  destruct (non_decimal (trim s)) as [v|] eqn:N.
  - apply non_decimal_nonneg in N. congruence.
  - destruct (parse_decimal (trim s)) as [[v [|c r]]|] eqn:P; try discriminate.
    unfold parse_float_string, trim in *.
    destruct (trim_end_split (trim_start s)) as [w [E Hw]].
    rewrite E, (parse_decimal_app_ws _ w Hw), P. reflexivity.
Qed.

Lemma num_mul_nonneg : forall x y, num_lt0 x = false -> num_lt0 y = false ->
  num_lt0 (num_mul x y) = false.
Proof.
  intros [m1 e1| | |] [m2 e2| | |] H1 H2; simpl in *; try discriminate;
    try reflexivity;
  try (apply Z.ltb_ge in H1); try (apply Z.ltb_ge in H2);
  try (apply Z.ltb_ge; nia);
  repeat match goal with
  | |- context [if ?b then _ else _] => destruct b eqn:?
  end; try reflexivity;
  repeat match goal with H : (_ =? _) = false |- _ => apply Z.eqb_neq in H end;
  repeat match goal with H : (_ <? _) = false |- _ => apply Z.ltb_ge in H end;
  exfalso; try destruct m1; try destruct m2; simpl in *; lia.
Qed.

Lemma num_add_nonneg : forall x y, num_lt0 x = false -> num_lt0 y = false ->
  num_lt0 (num_add x y) = false.
Proof.
  intros [m1 e1| | |] [m2 e2| | |] H1 H2; simpl in *; try discriminate;
    try reflexivity.
  apply Z.ltb_ge in H1, H2. apply Z.ltb_ge.
  assert (0 <= 10 ^ (e1 - Z.min e1 e2)) by (apply Z.pow_nonneg; lia).
  assert (0 <= 10 ^ (e2 - Z.min e1 e2)) by (apply Z.pow_nonneg; lia).
  nia.
Qed.

(** ** Line items *)

Lemma parseFloat_nonneg_ToNumber : forall v p q,
  parseFloat v = Some p -> num_lt0 p = false ->
  js_ToNumber v = Some q -> num_lt0 q = false.
Proof.
  intros [| |b|n|s|d|z] p q Hp Hn Hq; simpl in *; try discriminate.
  - injection Hq as <-. reflexivity.
  - injection Hq as <-. reflexivity.
  - injection Hq as <-. destruct b; reflexivity.
  - congruence.
  - injection Hp as <-. injection Hq as <-.
    destruct (num_lt0 (string_to_number s)) eqn:N; [|reflexivity].
    rewrite (string_to_number_neg s N) in Hn. congruence.
Qed.

Lemma js_mul_number : forall a b t, js_mul a b = Some (NumberV t) ->
  exists x y, js_ToNumber a = Some x /\ js_ToNumber b = Some y /\ t = num_mul x y.
Proof.
  intros a b t H.
  destruct a, b; simpl in H; try discriminate; injection H as <-;
    do 2 eexists; (split; [reflexivity|]); (split; [reflexivity|]); reflexivity.
Qed.

Lemma calc_item_spec : forall it li ws, calc_item it = Some (li, ws) ->
  li_name li = name it /\ num_lt0 (li_total li) = false /\
  (if item_invalid it
   then li = mkLineItem (name it) (JNum num_zero) (JNum num_zero) num_zero
        /\ ws = [invalid_item_warning it]
   else li_quantity li = quantity it /\ li_price li = price it /\ ws = []
        /\ js_mul (quantity it) (price it) = Some (NumberV (li_total li))).
Proof.
  intros it li ws H. unfold calc_item, item_invalid in *.
  destruct (parseFloat (quantity it)) as [q|] eqn:Eq; [|discriminate].
  cbn [bind_opt] in H.
  destruct (parseFloat (price it)) as [p|] eqn:Ep; [|discriminate].
  cbn [bind_opt] in H.
  destruct (num_isNaN q || num_isNaN p || num_lt0 q || num_lt0 p)%bool eqn:B.
  - injection H as <- <-. repeat split; reflexivity.
  - apply Bool.orb_false_iff in B as [B Hp0].
    apply Bool.orb_false_iff in B as [_ Hq0].
    destruct (js_mul (quantity it) (price it)) as [[t|zt]|] eqn:Et;
      cbn [bind_opt] in H; try discriminate.
    injection H as <- <-.
    repeat split; try reflexivity.
    destruct (js_mul_number _ _ _ Et) as [q' [p' [Eq' [Ep' ->]]]].
    cbn [li_total].
    apply num_mul_nonneg.
    + exact (parseFloat_nonneg_ToNumber _ _ _ Eq Hq0 Eq').
    + exact (parseFloat_nonneg_ToNumber _ _ _ Ep Hp0 Ep').
Qed.

Lemma map_items_spec : forall its lis w, map_items its = Some (lis, w) ->
  w = map invalid_item_warning (filter item_invalid its) /\
  Forall2 (fun it li =>
    li_name li = name it /\ num_lt0 (li_total li) = false /\
    (if item_invalid it
     then li_quantity li = JNum num_zero /\ li_price li = JNum num_zero
          /\ li_total li = num_zero
     else li_quantity li = quantity it /\ li_price li = price it
          /\ (forall q p, quantity it = JNum q -> price it = JNum p ->
              li_total li = num_mul q p))) its lis.
Proof.
  induction its as [|it rest IH]; intros lis w H; simpl in H.
  - injection H as <- <-. split; [reflexivity | constructor].
  - destruct (calc_item it) as [[l1 w1]|] eqn:E1; [|discriminate].
    cbn [bind_opt] in H.
    destruct (map_items rest) as [[ls ws]|] eqn:E2; [|discriminate].
    cbn [bind_opt fst snd] in H. injection H as <- <-.
    destruct (IH ls ws eq_refl) as [Hw HF].
    destruct (calc_item_spec it l1 w1 E1) as [Hn [Ht Hc]].
    split.
    + simpl. destruct (item_invalid it);
        [destruct Hc as [_ ->] | destruct Hc as [_ [_ [-> _]]]]; simpl; congruence.
    + constructor; [|exact HF]. cbv beta. split; [exact Hn|]. split; [exact Ht|].
      destruct (item_invalid it).
      * destruct Hc as [-> _]. repeat split; reflexivity.
      * destruct Hc as [Hq [Hp [_ Hm]]]. repeat split; try assumption.
      intros q p Eq Ep. rewrite Eq, Ep in Hm. unfold js_mul in Hm. simpl in Hm.
      congruence.
Qed.

Lemma sum_totals_nonneg : forall lis,
  Forall (fun li => num_lt0 (li_total li) = false) lis ->
  num_lt0 (sum_totals lis) = false.
Proof.
  unfold sum_totals. intros lis.
  assert (G : forall acc, num_lt0 acc = false ->
    Forall (fun li => num_lt0 (li_total li) = false) lis ->
    num_lt0 (fold_left (fun sum li => num_add sum (li_total li)) lis acc) = false).
  { induction lis as [|li rest IH]; intros acc Ha HF; simpl; [exact Ha|].
    inversion HF; subst. apply IH; [apply num_add_nonneg|]; assumption. }
  intros HF. apply G; [reflexivity | exact HF].
Qed.

Lemma calculateLineItems_nonneg : forall its lis sub w,
  calculateLineItems its = Some (lis, sub, w) -> num_lt0 sub = false.
Proof.
  intros its lis sub w H. unfold calculateLineItems in H.
  destruct (map_items its) as [[ls ws]|] eqn:E; [|discriminate].
  cbn [bind_opt fst snd] in H. injection H as <- <- _.
  apply sum_totals_nonneg.
  destruct (map_items_spec its ls ws E) as [_ HF].
  clear E. induction HF as [|it li its' lis' [_ [Ht _]] _ IH]; constructor; assumption.
Qed.

Lemma calc_item_some : forall it,
  is_symbol (quantity it) = false -> is_symbol (price it) = false ->
  is_bigint (quantity it) = false -> is_bigint (price it) = false ->
  exists r, calc_item it = Some r.
Proof.
  intros [n q p] Hq Hp Bq Bp. unfold calc_item, js_mul. cbn [quantity price] in *.
  assert (F : forall v, is_symbol v = false -> is_bigint v = false ->
    (exists x, parseFloat v = Some x) /\ (exists y, js_ToNumeric v = Some (NumberV y))).
  { intros [| | | | |d|z] Hv Hb; simpl in Hv, Hb; try discriminate; simpl;
      split; eexists; reflexivity. }
  destruct (F q Hq Bq) as [[x Ex] [x' Ex']], (F p Hp Bp) as [[y Ey] [y' Ey']].
  rewrite Ex, Ey, Ex', Ey'. simpl.
  destruct (_ || _)%bool; eexists; reflexivity.
Qed.

Lemma map_items_some : forall its,
  Forall (fun it => is_symbol (quantity it) = false /\ is_symbol (price it) = false
                    /\ is_bigint (quantity it) = false /\ is_bigint (price it) = false) its ->
  exists r, map_items its = Some r.
Proof.
  induction its as [|it rest IH]; intros HF; simpl; [eexists; reflexivity|].
  inversion HF as [|? ? [Hq [Hp [Bq Bp]]] HF']; subst.
  destruct (calc_item_some it Hq Hp Bq Bp) as [r1 E1]. rewrite E1.
  destruct (IH HF') as [r2 E2]. rewrite E2. eexists; reflexivity.
Qed.

Lemma calculateLineItems_warnings : forall its lis sub w,
  calculateLineItems its = Some (lis, sub, w) ->
  w = map invalid_item_warning (filter item_invalid its).
Proof.
  intros its lis sub w H. unfold calculateLineItems in H.
  destruct (map_items its) as [[ls ws]|] eqn:E; [|discriminate].
  cbn [bind_opt fst snd] in H. injection H as <- _ <-.
  exact (proj1 (map_items_spec its ls ws E)).
Qed.

(** ** Row layout *)

Lemma padEnd_eq : forall s n, padEnd s n = s ++ spaces (Z.to_nat (n - slen s)).
Proof.
  intros s n. unfold padEnd. destruct (n <=? slen s) eqn:E; [|reflexivity].
  apply Z.leb_le in E. replace (Z.to_nat (n - slen s)) with O by lia.
  symmetry. apply str_app_nil_r.
Qed.

Lemma padStart_eq : forall s n, padStart s n = spaces (Z.to_nat (n - slen s)) ++ s.
Proof.
  intros s n. unfold padStart. destruct (n <=? slen s) eqn:E; [|reflexivity].
  apply Z.leb_le in E. replace (Z.to_nat (n - slen s)) with O by lia.
  reflexivity.
Qed.

Lemma all_digits_app : forall a b,
  all_digits a = true -> all_digits b = true -> all_digits (a ++ b) = true.
Proof.
  induction a as [|c r IH]; intros b Ha Hb; simpl in *; [exact Hb|].
  apply Bool.andb_true_iff in Ha as [Hc Hr]. rewrite Hc. simpl. apply IH; assumption.
Qed.

Lemma all_digits_zeros : forall k, all_digits (zeros k) = true.
Proof. induction k as [|k IH]; [reflexivity | exact IH]. Qed.

Lemma length_zeros : forall k, String.length (zeros k) = k.
Proof. induction k as [|k IH]; simpl; [reflexivity | now rewrite IH]. Qed.

Lemma all_digits_uint : forall d, all_digits (NilEmpty.string_of_uint d) = true.
Proof. induction d; simpl; try reflexivity; exact IHd. Qed.

Lemma all_digits_Z_to_string : forall n, 0 <= n -> all_digits (Z_to_string n) = true.
Proof.
  intros [|p|p] H; [reflexivity | |lia].
  unfold Z_to_string. simpl. apply all_digits_uint.
Qed.

Lemma substring_length : forall n m s, (n + m <= String.length s)%nat ->
  String.length (substring n m s) = m.
Proof.
  induction n as [|n IH]; intros m s H.
  - revert m H. induction s as [|c r IHs]; intros [|m] H; simpl in *;
      try reflexivity; try lia.
    rewrite IHs; [reflexivity | lia].
  - destruct s as [|c r]; simpl in *; [lia|]. apply IH. lia.
Qed.

Lemma substring_all_digits : forall n m s, all_digits s = true ->
  all_digits (substring n m s) = true.
Proof.
  induction n as [|n IH]; intros m s H.
  - revert m. induction s as [|c r IHs]; intros [|m]; simpl in *; try reflexivity.
    apply Bool.andb_true_iff in H as [Hc Hr]. rewrite Hc. exact (IHs Hr m).
  - destruct s as [|c r]; simpl in *; [reflexivity|].
    apply Bool.andb_true_iff in H as [_ Hr]. apply IH. exact Hr.
Qed.

(** Below [10^21], [toFixed(2)] writes a sign, at least one integer digit,
    a point and exactly two fraction digits. *)
Lemma to_fixed2_shape : forall m e, dec_ge_pow10 (Z.abs m) e 21 = false ->
  exists sgn ip fp, to_fixed2 (Dec m e) = sgn ++ ip ++ "." ++ fp /\
    (sgn = "" \/ sgn = "-") /\ ip <> "" /\ all_digits ip = true /\
    (String.length fp = 2)%nat /\ all_digits fp = true.
Proof.
  intros m e H. unfold to_fixed2. rewrite H. cbv zeta.
  set (n := if 0 <=? e + 2 then Z.abs m * 10 ^ (e + 2)
            else (2 * Z.abs m + 10 ^ (- (e + 2))) / (2 * 10 ^ (- (e + 2)))).
  assert (Hn : 0 <= n).
  { unfold n. destruct (0 <=? e + 2) eqn:E.
    - apply Z.leb_le in E. pose proof (Z.pow_nonneg 10 (e + 2)). nia.
    - apply Z.div_pos; [| apply Z.lt_le_trans with 2; [lia|]];
        pose proof (Z.pow_pos_nonneg 10 (- (e + 2))); lia. }
  set (ds0 := Z_to_string n).
  set (ds := if slen ds0 <=? 2 then zeros (Z.to_nat (3 - slen ds0)) ++ ds0 else ds0).
  assert (Hd : all_digits ds = true).
  { unfold ds. destruct (_ <=? 2); [apply all_digits_app; [apply all_digits_zeros|]|];
      apply all_digits_Z_to_string; exact Hn. }
  assert (Hk : (3 <= String.length ds)%nat).
  { unfold ds, slen in *. destruct (Z.of_nat (String.length ds0) <=? 2) eqn:E.
    - rewrite str_length_app, length_zeros. apply Z.leb_le in E. lia.
    - apply Z.leb_gt in E. lia. }
  exists (if m <? 0 then "-" else ""),
    (substring 0 (String.length ds - 2) ds), (substring (String.length ds - 2) 2 ds).
  split; [reflexivity|]. split; [destruct (m <? 0); [right|left]; reflexivity|].
  split.
  { intro E. assert (L := substring_length 0 (String.length ds - 2) ds ltac:(lia)).
    rewrite E in L. simpl in L. lia. }
  split; [apply substring_all_digits; exact Hd|].
  split; [apply substring_length; lia|].
  apply substring_all_digits; exact Hd.
Qed.

(** ** Claims *)

(** C3: [wrapText] is the greedy word wrap over the words of
    [text.split(' ')]: the first word opens a line; a next word is added
    while [currentLine + " " + nextWord] is within the budget, otherwise
    the line is flushed (trimmed) and the word opens the next line.  A word
    wider than the budget is a line of its own, whole. *)
Theorem wrapText_greedy_word_wrap : forall text maxLength,
  wrapText text maxLength = map trim (greedy_lines (split_on " " text) maxLength)
  /\ (forall w, In w (split_on " " text) -> maxLength < slen w ->
        In w (greedy_lines (split_on " " text) maxLength)
        /\ In (trim w) (wrapText text maxLength)).
Proof.
  intros text maxLength. split; [apply wrapText_greedy|].
  intros w Hin Hw.
  assert (G : In w (greedy_lines (split_on " " text) maxLength)).
  { exact (greedy_result_wide maxLength (split_on " " text) ([], None) w Hin Hw). }
  split; [exact G|].
  rewrite wrapText_greedy. apply in_map. exact G.
Qed.

Lemma wrapText_greedy_word_wrap_witness :
  In "supercalifragilistic" (split_on " " "a supercalifragilistic b") /\
  10 < slen "supercalifragilistic" /\
  In "supercalifragilistic"
     (greedy_lines (split_on " " "a supercalifragilistic b") 10) /\
  In (trim "supercalifragilistic") (wrapText "a supercalifragilistic b" 10).
Proof.
  assert (H1 : In "supercalifragilistic" (split_on " " "a supercalifragilistic b"))
    by (vm_compute; right; left; reflexivity).
  assert (H2 : 10 < slen "supercalifragilistic") by (vm_compute; reflexivity).
  split; [exact H1|]. split; [exact H2|].
  exact (proj2 (wrapText_greedy_word_wrap "a supercalifragilistic b" 10)
           "supercalifragilistic" H1 H2).
Defined.

(** C9: the items section of the text receipt (between the column header
    rule and the blank line before the summary rule) has as many rows as
    the wrapped name lines of all the line items together. *)
Theorem item_row_count : forall rd lines w,
  receipt_lines rd = Some (lines, w) ->
  exists lis sub rows rest,
    calculateLineItems (items rd) = Some (lis, sub, w)
    /\ lines = (header_lines (default "YOUR STORE NAME" (storeName rd)) (companyAddress rd)
                ++ rows ++ "" :: rule_dash :: rest)%list
    /\ List.length rows
       = list_sum (map (fun li => List.length (item_name_lines (rd_currency rd) li)) lis).
Proof.
  intros rd lines w H.
  destruct (receipt_lines_inv rd lines w H) as [lis [sub [rows [summary [E1 [E2 [_ E4]]]]]]].
  exists lis, sub, rows, (summary ++ footer_lines (rd_currency rd) (receipt_totals rd sub))%list.
  split; [exact E1|]. split.
  - rewrite E4. reflexivity.
  - exact (item_rows_length _ _ _ E2).
Qed.

Lemma item_row_count_witness :
  receipt_lines coffee_shop = Some (coffee_shop_lines, coffee_shop_warnings) /\
  exists lis sub rows rest,
    calculateLineItems (items coffee_shop) = Some (lis, sub, coffee_shop_warnings)
    /\ coffee_shop_lines
       = (header_lines (default "YOUR STORE NAME" (storeName coffee_shop))
            (companyAddress coffee_shop) ++ rows ++ "" :: rule_dash :: rest)%list
    /\ List.length rows
       = list_sum (map (fun li => List.length (item_name_lines (rd_currency coffee_shop) li)) lis).
Proof.
  assert (H : receipt_lines coffee_shop = Some (coffee_shop_lines, coffee_shop_warnings))
    by (vm_compute; reflexivity).
  split; [exact H|]. exact (item_row_count coffee_shop _ _ H).
Defined.

(** C10: [wrapText] never returns an empty list, so [nameLines[0]] exists,
    and every line item of [calculateLineItems], whatever its name, gives
    at least one row, as many as its wrapped name lines. *)
Theorem wrapText_nonempty_rows :
  (forall text maxLength, wrapText text maxLength <> [])
  /\ (forall its lis sub w cur li,
        calculateLineItems its = Some (lis, sub, w) -> In li lis ->
        exists row rest, item_rows_of cur li = Some (row :: rest)
          /\ List.length (row :: rest) = List.length (item_name_lines cur li)).
Proof.
  split; [exact wrapText_not_nil|].
  intros its lis sub w cur li H Hin.
  destruct (calculateLineItems_printable its lis sub w H li Hin) as [qty Hq].
  exact (item_rows_of_shape cur li qty Hq).
Qed.

Lemma wrapText_nonempty_rows_witness :
  exists lis sub w li,
    calculateLineItems (items coffee_shop) = Some (lis, sub, w) /\ In li lis /\
    exists row rest, item_rows_of "$" li = Some (row :: rest)
      /\ List.length (row :: rest) = List.length (item_name_lines "$" li).
Proof.
  eexists _, _, _, _. split; [reflexivity|].
  assert (Hin : forall (x y : line_item) z, In y (x :: y :: z)).
  { intros. right. left. reflexivity. }
  split; [apply Hin|].
  eapply (proj2 wrapText_nonempty_rows (items coffee_shop)); [reflexivity | apply Hin].
Defined.

(** C1: the totals follow the formulas in their fixed order: the subtotal
    is the sum of the line totals, the discount is [subtotal * (value/100)]
    for a percentage and [value] otherwise, tax and VAT are both taken on
    the discounted subtotal, and the total adds them to it.  On subtotal
    100 with 10% off and an 8% tax the amounts print as 10.00, 90.00, 7.20
    and 97.20. *)
Theorem totals_formulas :
  (forall rd lis sub w,
    calculateLineItems (items rd) = Some (lis, sub, w) ->
    let t := receipt_totals rd sub in
    t_subtotal t = fold_left num_add (map li_total lis) num_zero
    /\ t_discountAmount t
       = match discount rd with
         | None => num_zero
         | Some ds =>
             if is_percentage ds then num_mul sub (num_div_pow10 (dvalue ds) 2)
             else dvalue ds
         end
    /\ t_subtotalAfterDiscount t = num_sub (t_subtotal t) (t_discountAmount t)
    /\ t_tax t = num_mul (t_subtotalAfterDiscount t) (rd_taxRate rd)
    /\ t_vat t = num_mul (t_subtotalAfterDiscount t) (rd_vatRate rd)
    /\ t_total t = num_add (num_add (t_subtotalAfterDiscount t) (t_tax t)) (t_vat t))
  /\ (exists lis sub w,
        calculateLineItems (items hundred_receipt) = Some (lis, sub, w)
        /\ (let t := receipt_totals hundred_receipt sub in
            map to_fixed2 [t_subtotal t; t_discountAmount t;
                           t_subtotalAfterDiscount t; t_tax t; t_total t])
           = ["100.00"; "10.00"; "90.00"; "7.20"; "97.20"]).
Proof.
  split.
  - intros rd lis sub w H. unfold calculateLineItems in H.
    destruct (map_items (items rd)) as [[ls ws]|]; [|discriminate].
    simpl in H. injection H as <- <- _.
    repeat split.
    unfold sum_totals. generalize num_zero.
    induction ls as [|li rest IH]; intros acc; simpl; [reflexivity|apply IH].
  - do 3 eexists. split; [vm_compute; reflexivity|]. vm_compute. reflexivity.
Qed.

Lemma totals_formulas_witness :
  exists lis sub w,
    calculateLineItems (items hundred_receipt) = Some (lis, sub, w) /\
    (let t := receipt_totals hundred_receipt sub in
     t_subtotal t = fold_left num_add (map li_total lis) num_zero
     /\ t_discountAmount t
        = match discount hundred_receipt with
          | None => num_zero
          | Some ds =>
              if is_percentage ds then num_mul sub (num_div_pow10 (dvalue ds) 2)
              else dvalue ds
          end
     /\ t_subtotalAfterDiscount t = num_sub (t_subtotal t) (t_discountAmount t)
     /\ t_tax t = num_mul (t_subtotalAfterDiscount t) (rd_taxRate hundred_receipt)
     /\ t_vat t = num_mul (t_subtotalAfterDiscount t) (rd_vatRate hundred_receipt)
     /\ t_total t = num_add (num_add (t_subtotalAfterDiscount t) (t_tax t)) (t_vat t)).
Proof.
  eexists _, _, _. split; [reflexivity|].
  eapply (proj1 totals_formulas). reflexivity.
Defined.

(** C5: a fixed discount [V] is taken as it is, also above the subtotal
    [S]: the discounted subtotal is [S - V] and tax, VAT and total are
    computed from it unclamped; on 4.50 with 5.00 off it is -0.50, and tax
    and VAT are negative. *)
Theorem fixed_discount_unclamped :
  (forall rd lis sub w ds,
    calculateLineItems (items rd) = Some (lis, sub, w) ->
    discount rd = Some ds -> is_percentage ds = false ->
    let t := receipt_totals rd sub in
    t_discountAmount t = dvalue ds
    /\ t_subtotalAfterDiscount t = num_sub sub (dvalue ds)
    /\ t_tax t = num_mul (num_sub sub (dvalue ds)) (rd_taxRate rd)
    /\ t_vat t = num_mul (num_sub sub (dvalue ds)) (rd_vatRate rd)
    /\ t_total t = num_add (num_add (num_sub sub (dvalue ds))
                                    (num_mul (num_sub sub (dvalue ds)) (rd_taxRate rd)))
                           (num_mul (num_sub sub (dvalue ds)) (rd_vatRate rd)))
  /\ (exists lis sub w,
        calculateLineItems (items over_discount_receipt) = Some (lis, sub, w)
        /\ (let t := receipt_totals over_discount_receipt sub in
            map to_fixed2 [t_subtotal t; t_discountAmount t;
                           t_subtotalAfterDiscount t; t_tax t; t_vat t; t_total t]
            = ["4.50"; "5.00"; "-0.50"; "-0.04"; "-0.10"; "-0.64"]
            /\ num_lt0 (t_subtotalAfterDiscount t) = true
            /\ num_lt0 (t_tax t) = true /\ num_lt0 (t_vat t) = true)).
Proof.
  split.
  - intros rd lis sub w ds _ Hd Hp. unfold receipt_totals, compute_totals,
      discount_amount. simpl. rewrite Hd, Hp. repeat split.
  - do 3 eexists. split; [vm_compute; reflexivity|]. vm_compute.
    repeat split.
Qed.

Lemma fixed_discount_unclamped_witness :
  exists lis sub w,
    calculateLineItems (items over_discount_receipt) = Some (lis, sub, w) /\
    discount over_discount_receipt = Some (mkDiscount "fixed" (Dec 500 (-2))) /\
    is_percentage (mkDiscount "fixed" (Dec 500 (-2))) = false /\
    (let t := receipt_totals over_discount_receipt sub in
     t_discountAmount t = Dec 500 (-2)
     /\ t_subtotalAfterDiscount t = num_sub sub (Dec 500 (-2))
     /\ t_tax t = num_mul (num_sub sub (Dec 500 (-2))) (rd_taxRate over_discount_receipt)
     /\ t_vat t = num_mul (num_sub sub (Dec 500 (-2))) (rd_vatRate over_discount_receipt)
     /\ t_total t = num_add (num_add (num_sub sub (Dec 500 (-2)))
                                     (num_mul (num_sub sub (Dec 500 (-2)))
                                              (rd_taxRate over_discount_receipt)))
                            (num_mul (num_sub sub (Dec 500 (-2)))
                                     (rd_vatRate over_discount_receipt))).
Proof.
  eexists _, _, _. split; [reflexivity|]. split; [reflexivity|].
  split; [reflexivity|].
  exact (proj1 fixed_discount_unclamped over_discount_receipt _ _ _ _
           eq_refl eq_refl eq_refl).
Defined.

(** C7: the summary block after the items is the Subtotal line, then a
    Discount line exactly when the discount amount is positive (labelled
    "Discount (N%)" for a percentage, "Discount" otherwise, the amount
    shown with a minus sign), then a VAT line exactly when the VAT is
    positive and a Tax line exactly when the tax is positive, each labelled
    with its rate times 100 to two decimals. *)
Theorem summary_block : forall rd lines w,
  receipt_lines rd = Some (lines, w) ->
  exists lis sub pre post,
    calculateLineItems (items rd) = Some (lis, sub, w)
    /\ (discount rd = None -> num_gt0 (t_discountAmount (receipt_totals rd sub)) = false)
    /\ (let t := receipt_totals rd sub in
        let cur := rd_currency rd in
        lines =
          (pre ++ [""; rule_dash]
           ++ [("Subtotal: " ++ padStart (cur ++ to_fixed2 (t_subtotal t)) 22)%string]
           ++ (match discount rd with
               | Some ds =>
                   if num_gt0 (t_discountAmount t) then
                     [(let label := if is_percentage ds
                                    then "Discount (" ++ num_to_string (dvalue ds) ++ "%)"
                                    else "Discount" in
                       label ++ ": "
                         ++ padStart ("-" ++ cur ++ to_fixed2 (t_discountAmount t))
                                     (29 - slen label))%string]
                   else []
               | None => []
               end)
           ++ (if num_gt0 (t_vat t) then
                 [("VAT (" ++ to_fixed2 (num_mul (rd_vatRate rd) (Dec 100 0)) ++ "%): "
                    ++ padStart (cur ++ to_fixed2 (t_vat t)) 20)%string]
               else [])
           ++ (if num_gt0 (t_tax t) then
                 [("Tax (" ++ to_fixed2 (num_mul (rd_taxRate rd) (Dec 100 0)) ++ "%): "
                    ++ padStart (cur ++ to_fixed2 (t_tax t)) 20)%string]
               else [])
           ++ rule_dash :: post)%list).
Proof.
  intros rd lines w H.
  destruct (receipt_lines_inv rd lines w H) as [lis [sub [rows [summary [E1 [_ [E3 E4]]]]]]].
  exists lis, sub,
    (header_lines (default "YOUR STORE NAME" (storeName rd)) (companyAddress rd) ++ rows)%list,
    (List.tl (footer_lines (rd_currency rd) (receipt_totals rd sub))).
  split; [exact E1|]. split.
  - intros Hn. unfold receipt_totals, compute_totals, discount_amount.
    rewrite Hn. reflexivity.
  - cbv zeta. rewrite E4. unfold summary_lines in E3.
    set (t := receipt_totals rd sub) in *. clearbody t.
    destruct (num_gt0 (t_discountAmount t)) eqn:G.
    + destruct (discount rd) as [ds|] eqn:Hd; [|discriminate].
      cbn [bind_opt] in E3. injection E3 as <-.
      cbn [app]. rewrite <- !app_assoc. reflexivity.
    + cbn [bind_opt] in E3. injection E3 as <-.
      destruct (discount rd); cbn [app]; rewrite <- !app_assoc; reflexivity.
Qed.

Lemma summary_block_witness :
  receipt_lines coffee_shop = Some (coffee_shop_lines, coffee_shop_warnings) /\
  exists lis sub pre post,
    calculateLineItems (items coffee_shop) = Some (lis, sub, coffee_shop_warnings)
    /\ (discount coffee_shop = None ->
        num_gt0 (t_discountAmount (receipt_totals coffee_shop sub)) = false)
    /\ (let t := receipt_totals coffee_shop sub in
        let cur := rd_currency coffee_shop in
        coffee_shop_lines =
          (pre ++ [""; rule_dash]
           ++ [("Subtotal: " ++ padStart (cur ++ to_fixed2 (t_subtotal t)) 22)%string]
           ++ (match discount coffee_shop with
               | Some ds =>
                   if num_gt0 (t_discountAmount t) then
                     [(let label := if is_percentage ds
                                    then "Discount (" ++ num_to_string (dvalue ds) ++ "%)"
                                    else "Discount" in
                       label ++ ": "
                         ++ padStart ("-" ++ cur ++ to_fixed2 (t_discountAmount t))
                                     (29 - slen label))%string]
                   else []
               | None => []
               end)
           ++ (if num_gt0 (t_vat t) then
                 [("VAT (" ++ to_fixed2 (num_mul (rd_vatRate coffee_shop) (Dec 100 0)) ++ "%): "
                    ++ padStart (cur ++ to_fixed2 (t_vat t)) 20)%string]
               else [])
           ++ (if num_gt0 (t_tax t) then
                 [("Tax (" ++ to_fixed2 (num_mul (rd_taxRate coffee_shop) (Dec 100 0)) ++ "%): "
                    ++ padStart (cur ++ to_fixed2 (t_tax t)) 20)%string]
               else [])
           ++ rule_dash :: post)%list).
Proof.
  assert (H : receipt_lines coffee_shop = Some (coffee_shop_lines, coffee_shop_warnings))
    by (vm_compute; reflexivity).
  split; [exact H|]. exact (summary_block coffee_shop _ _ H).
Defined.


(** C2 (amended).  [calculateLineItems] keeps every item, in order.  An
    item whose quantity or price [parseFloat]s to NaN or to a negative
    number gets quantity 0, price 0 and total 0, and one warning naming it
    is written; any other item keeps its quantity and price, and when both
    are Numbers its total is their product (so [+Infinity] is kept, not
    coerced).  No line total is negative. *)
Theorem line_items_coercion : forall its lis sub w,
  calculateLineItems its = Some (lis, sub, w) ->
  w = map invalid_item_warning (filter item_invalid its) /\
  Forall2 (fun it li =>
    li_name li = name it /\ num_lt0 (li_total li) = false /\
    (if item_invalid it
     then li_quantity li = JNum num_zero /\ li_price li = JNum num_zero
          /\ li_total li = num_zero
     else li_quantity li = quantity it /\ li_price li = price it
          /\ (forall q p, quantity it = JNum q -> price it = JNum p ->
              li_total li = num_mul q p))) its lis.
Proof.
  intros its lis sub w H. unfold calculateLineItems in H.
  destruct (map_items its) as [[ls ws]|] eqn:E; [|discriminate].
  cbn [bind_opt fst snd] in H. injection H as <- _ <-.
  exact (map_items_spec its ls ws E).
Qed.

Lemma line_items_coercion_witness :
  exists lis sub w, calculateLineItems mixed_items = Some (lis, sub, w) /\
  (w = map invalid_item_warning (filter item_invalid mixed_items) /\
  Forall2 (fun it li =>
    li_name li = name it /\ num_lt0 (li_total li) = false /\
    (if item_invalid it
     then li_quantity li = JNum num_zero /\ li_price li = JNum num_zero
          /\ li_total li = num_zero
     else li_quantity li = quantity it /\ li_price li = price it
          /\ (forall q p, quantity it = JNum q -> price it = JNum p ->
              li_total li = num_mul q p))) mixed_items lis).
Proof.
  eexists _, _, _. split; [reflexivity|].
  eapply line_items_coercion. reflexivity.
Defined.

(** C2, counterexample.  An item of quantity [+Infinity] is not coerced:
    its total is [+Infinity], not 0, and no warning is written. *)
Lemma infinity_item_not_coerced :
  calculateLineItems [infinity_item]
  = Some ([mkLineItem "Lamp" (JNum PInf) (JNum (Dec 1 0)) PInf], PInf, []).
Proof. reflexivity. Qed.

(** C6 (amended).  When the line items are computed and the discount value
    is not negative, [discountAmount] is not negative, for a percentage and
    for a fixed discount alike. *)
Theorem discount_nonneg : forall rd lis sub w,
  calculateLineItems (items rd) = Some (lis, sub, w) ->
  (forall ds, discount rd = Some ds -> num_lt0 (dvalue ds) = false) ->
  num_lt0 (t_discountAmount (receipt_totals rd sub)) = false.
Proof.
  intros rd lis sub w H Hd.
  pose proof (calculateLineItems_nonneg _ _ _ _ H) as Hs.
  unfold receipt_totals, compute_totals, discount_amount. cbn [t_discountAmount].
  destruct (discount rd) as [ds|]; [|reflexivity].
  specialize (Hd ds eq_refl).
  destruct (is_percentage ds); [|exact Hd].
  apply num_mul_nonneg; [exact Hs|].
  destruct (dvalue ds); exact Hd.
Qed.

Lemma discount_nonneg_witness :
  exists lis sub w, calculateLineItems (items coffee_shop) = Some (lis, sub, w) /\
  ((forall ds, discount coffee_shop = Some ds -> num_lt0 (dvalue ds) = false) /\
   num_lt0 (t_discountAmount (receipt_totals coffee_shop sub)) = false).
Proof.
  eexists _, _, _. split; [reflexivity|].
  assert (Hd : forall ds, discount coffee_shop = Some ds -> num_lt0 (dvalue ds) = false).
  { intros ds E. injection E as <-. reflexivity. }
  split; [exact Hd|]. eapply discount_nonneg; [reflexivity | exact Hd].
Defined.

(** C6, counterexample.  A fixed discount of [-5] gives [discountAmount]
    [-5]. *)
Lemma negative_discount_amount :
  exists lis sub w,
  calculateLineItems (items negative_discount_receipt) = Some (lis, sub, w) /\
  t_discountAmount (receipt_totals negative_discount_receipt sub) = Dec (-5) 0 /\
  num_lt0 (Dec (-5) 0) = true.
Proof. eexists _, _, _. split; [reflexivity|]. split; reflexivity. Qed.

(** C8 (amended).  When no item has a Symbol or a BigInt as quantity or
    price, [generateReceipt] returns a string, and it writes exactly one
    warning per item that [calculateLineItems] sends to zero. *)
Theorem generateReceipt_succeeds : forall rd,
  Forall (fun it => is_symbol (quantity it) = false /\ is_symbol (price it) = false
                    /\ is_bigint (quantity it) = false /\ is_bigint (price it) = false)
    (items rd) ->
  exists out,
  generateReceipt rd = Some (out, map invalid_item_warning (filter item_invalid (items rd))).
Proof.
  intros rd HF. destruct (map_items_some _ HF) as [[lis w] E].
  assert (Ec : calculateLineItems (items rd) = Some (lis, sum_totals lis, w)).
  { unfold calculateLineItems. rewrite E. reflexivity. }
  pose proof (calculateLineItems_warnings _ _ _ _ Ec) as Hw.
  destruct (item_rows_some (rd_currency rd) lis
              (calculateLineItems_printable _ _ _ _ Ec)) as [rows Er].
  unfold generateReceipt, receipt_lines. rewrite Ec. cbn [bind_opt].
  rewrite Er. cbn [bind_opt].
  unfold summary_lines.
  destruct (num_gt0 (t_discountAmount (receipt_totals rd (sum_totals lis)))) eqn:G.
  - unfold receipt_totals, compute_totals, discount_amount in G.
    cbn [t_discountAmount] in G.
    destruct (discount rd) as [ds|]; [|discriminate].
    cbn [bind_opt]. rewrite Hw. eexists; reflexivity.
  - cbn [bind_opt]. rewrite Hw. eexists; reflexivity.
Qed.

Lemma generateReceipt_succeeds_witness :
  Forall (fun it => is_symbol (quantity it) = false /\ is_symbol (price it) = false
                    /\ is_bigint (quantity it) = false /\ is_bigint (price it) = false)
    (items coffee_shop) /\
  exists out, generateReceipt coffee_shop
    = Some (out, map invalid_item_warning (filter item_invalid (items coffee_shop))).
Proof.
  assert (HF : Forall (fun it => is_symbol (quantity it) = false
                                 /\ is_symbol (price it) = false
                                 /\ is_bigint (quantity it) = false
                                 /\ is_bigint (price it) = false) (items coffee_shop)).
  { repeat constructor. }
  split; [exact HF | apply generateReceipt_succeeds; exact HF].
Defined.

(** C8, counterexample.  A Symbol quantity makes [parseFloat] throw, and a
    BigInt quantity [2n] passes the check ([parseFloat(2n)] is 2) but
    [2n * 1] throws; with a BigInt price [3n] as well, [2n * 3n] is [6n] and
    the [reduce] throws at [0 + 6n].  In all three cases [generateReceipt]
    fails. *)
Lemma symbol_quantity_throws :
  generateReceipt symbol_receipt = None /\ generateReceipt bigint_receipt = None
  /\ item_invalid (mkItem "Tea" (JBigInt 2) (JNum (Dec 1 0))) = false
  /\ generateReceipt (mkReceipt None None [mkItem "Tea" (JBigInt 2) (JBigInt 3)]
                       None None None None) = None
  /\ item_invalid (mkItem "Tea" (JBigInt 2) (JBigInt 3)) = false.
Proof. repeat split; reflexivity. Qed.

(** C4 (amended).  The first row of a line item is its quantity string
    padded on the right to width 3, a space, the first wrapped name line
    padded on the right to [maxNameLength = 32 - |qty| - |itemTotal| - 2],
    a space, and [itemTotal] (the currency and [toFixed(2)] of the total)
    padded on the left to width 7; each further name line is a row of four
    spaces and the line padded on the right to [maxNameLength + 3], with no
    quantity and no total.  Below [10^21] a total is written with exactly
    two fraction digits. *)
Theorem item_row_layout :
  (forall cur li rows, item_rows_of cur li = Some rows ->
   exists qty first rest,
     js_toString_method (li_quantity li) = Some qty /\
     wrapText (li_name li)
       (32 - slen qty - slen (cur ++ to_fixed2 (li_total li)) - 2) = first :: rest /\
     rows =
       (qty ++ spaces (Z.to_nat (3 - slen qty)) ++ " "
        ++ first ++ spaces (Z.to_nat (32 - slen qty
                                      - slen (cur ++ to_fixed2 (li_total li)) - 2
                                      - slen first))
        ++ " " ++ spaces (Z.to_nat (7 - slen (cur ++ to_fixed2 (li_total li))))
        ++ cur ++ to_fixed2 (li_total li))
       :: map (fun l => "    " ++ l
                 ++ spaces (Z.to_nat (32 - slen qty
                                      - slen (cur ++ to_fixed2 (li_total li)) - 2
                                      + 3 - slen l))) rest) /\
  (forall m e, dec_ge_pow10 (Z.abs m) e 21 = false ->
   exists sgn ip fp, to_fixed2 (Dec m e) = sgn ++ ip ++ "." ++ fp /\
     (sgn = "" \/ sgn = "-") /\ ip <> "" /\ all_digits ip = true /\
     (String.length fp = 2)%nat /\ all_digits fp = true).
Proof.
  split; [|exact to_fixed2_shape].
  intros cur li rows H. unfold item_rows_of in H.
  destruct (js_toString_method (li_quantity li)) as [qty|] eqn:Q; [|discriminate].
  cbn [bind_opt] in H. unfold max_name_length in H.
  destruct (wrapText _ _) as [|first rest] eqn:W; [discriminate|].
  injection H as <-. exists qty, first, rest. split; [reflexivity|].
  split; [exact W|].
  rewrite !padEnd_eq, padStart_eq, !str_app_assoc. f_equal.
  apply map_ext. intros l. unfold continuation_row. rewrite padEnd_eq.
  reflexivity.
Qed.

Lemma item_row_layout_witness :
  item_rows_of "$" milk_line_item = Some ["2   Milk                       $7.00"] /\
  (exists qty first rest,
     js_toString_method (li_quantity milk_line_item) = Some qty /\
     wrapText (li_name milk_line_item)
       (32 - slen qty - slen ("$" ++ to_fixed2 (li_total milk_line_item)) - 2)
       = first :: rest /\
     ["2   Milk                       $7.00"] =
       (qty ++ spaces (Z.to_nat (3 - slen qty)) ++ " "
        ++ first ++ spaces (Z.to_nat (32 - slen qty
                                      - slen ("$" ++ to_fixed2 (li_total milk_line_item)) - 2
                                      - slen first))
        ++ " " ++ spaces (Z.to_nat (7 - slen ("$" ++ to_fixed2 (li_total milk_line_item))))
        ++ "$" ++ to_fixed2 (li_total milk_line_item))
       :: map (fun l => "    " ++ l
                 ++ spaces (Z.to_nat (32 - slen qty
                                      - slen ("$" ++ to_fixed2 (li_total milk_line_item)) - 2
                                      + 3 - slen l))) rest).
Proof.
  assert (H : item_rows_of "$" milk_line_item = Some ["2   Milk                       $7.00"])
    by (vm_compute; reflexivity).
  split; [exact H|]. exact (proj1 item_row_layout "$" milk_line_item _ H).
Defined.

(** C4, counterexample.  The quantity is padded on the right, not the
    left: Milk, 2 at 3.50, gives a row starting ["2  "], where a left pad
    to width 3 gives ["  2"]; and a total of [1e21] is written ["1e+21"],
    with no fraction digits. *)
Lemma item_row_counterexample :
  item_rows_of "$" milk_line_item = Some ["2   Milk                       $7.00"] /\
  String.prefix (padStart "2" 3) "2   Milk                       $7.00" = false /\
  item_rows_of "$" gold_line_item = Some ["1e+21 Gold                 $1e+21"] /\
  to_fixed2 (li_total gold_line_item) = "1e+21".
Proof. vm_compute. repeat split; reflexivity. Qed.

(** * Further properties of the code *)

(** ** Lemmas on splitting, joining and trimming *)

Lemma split_aux_not_nil : forall c s cur, split_aux c s cur <> [].
Proof.
  intros c s. induction s as [|x r IH]; intros cur; simpl; [discriminate|].
  destruct (Ascii.eqb x c); [discriminate | apply IH].
Qed.

Lemma split_on_not_nil : forall c s, split_on c s <> [].
Proof. intros. apply split_aux_not_nil. Qed.

Lemma concat_cons_not_nil : forall sep x l, l <> [] ->
  String.concat sep (x :: l) = x ++ sep ++ String.concat sep l.
Proof. intros sep x [|y l] H; [contradiction|reflexivity]. Qed.

Lemma concat_split_aux : forall c s cur,
  String.concat (String c "") (split_aux c s cur) = cur ++ s.
Proof.
  intros c s. induction s as [|x r IH]; intros cur; simpl.
  - symmetry. apply str_app_nil_r.
  - destruct (Ascii.eqb x c) eqn:E.
    + apply Ascii.eqb_eq in E. subst x.
      rewrite concat_cons_not_nil by apply split_aux_not_nil.
      rewrite IH. reflexivity.
    + rewrite IH, str_app_assoc. reflexivity.
Qed.

(** Joining the pieces of [s.split(' ')] with [' '] gives [s] back. *)
Lemma concat_split_on : forall s, String.concat " " (split_on " " s) = s.
Proof. intros s. exact (concat_split_aux " " s ""). Qed.

Lemma concat_join : forall sep l a b r,
  String.concat sep (l ++ (a ++ sep ++ b)%string :: r)%list
  = String.concat sep (l ++ a :: b :: r)%list.
Proof.
  intros sep l a b r. induction l as [|x l IH].
  - simpl. destruct r as [|y r]; [reflexivity|].
    rewrite !str_app_assoc. reflexivity.
  - cbn [app]. rewrite !concat_cons_not_nil by (destruct l; discriminate).
    rewrite IH. reflexivity.
Qed.

Lemma length_trim_start : forall s,
  (String.length (trim_start s) <= String.length s)%nat.
Proof.
  induction s as [|c r IH]; simpl; [lia|]. destruct (is_ws c); simpl; lia.
Qed.

Lemma length_trim_end : forall s,
  (String.length (trim_end s) <= String.length s)%nat.
Proof.
  induction s as [|c r IH]; simpl; [lia|].
  destruct (String.eqb (trim_end r) "" && is_ws c)%bool; simpl; lia.
Qed.

Lemma slen_trim_le : forall s, slen (trim s) <= slen s.
Proof.
  intros s. unfold slen, trim.
  pose proof (length_trim_end (trim_start s)). pose proof (length_trim_start s). lia.
Qed.

(** ** The greedy wrap: widths and joining *)

Lemma greedy_result_lines : forall m words ws st,
  (forall x, In x (fst st) -> slen x <= m \/ In x words) ->
  (forall c, snd st = Some c -> slen c <= m \/ In c words) ->
  (snd st = None -> ws <> []) ->
  (forall w, In w ws -> In w words) ->
  forall x, In x (greedy_result m st ws) -> slen x <= m \/ In x words.
Proof.
  intros m words ws. induction ws as [|w ws IH]; intros [lines cur] H1 H2 H3 H4 x Hx.
  - unfold greedy_result in Hx. simpl in *.
    destruct cur as [c|]; [|exfalso; now apply H3].
    apply in_app_or in Hx as [Hx|[<-|[]]]; [now apply H1 | now apply H2].
  - unfold greedy_result in Hx. cbn [fold_left] in Hx. fold (greedy_result m
      (greedy_step m (lines, cur) w) ws) in Hx.
    assert (Hw : In w words) by (apply H4; now left).
    apply (IH (greedy_step m (lines, cur) w)); try assumption.
    + intros y Hy. destruct cur as [c|]; cbn [greedy_step] in Hy;
        [|apply H1; exact Hy].
      destruct (slen (c ++ " " ++ w) <=? m); cbn [fst] in Hy; [apply H1; exact Hy|].
      apply in_app_or in Hy as [Hy|[<-|[]]]; [apply H1; exact Hy | apply H2; reflexivity].
    + intros c' Hc'. destruct cur as [c|]; cbn [greedy_step snd] in Hc'.
      * destruct (slen (c ++ " " ++ w) <=? m) eqn:E; cbn [snd] in Hc';
          injection Hc' as <-;
          [left; now apply Z.leb_le | now right].
      * injection Hc' as <-. now right.
    + intros Hn. destruct cur as [c|]; simpl in Hn;
        [destruct (_ <=? m); discriminate | discriminate].
    + intros y Hy. apply H4. now right.
Qed.

Lemma greedy_result_concat : forall m ws lines c,
  String.concat " " (greedy_result m (lines, Some c) ws)
  = String.concat " " (lines ++ c :: ws)%list.
Proof.
  intros m ws. induction ws as [|w ws IH]; intros lines c; [reflexivity|].
  unfold greedy_result. cbn [fold_left greedy_step].
  destruct (slen (c ++ " " ++ w) <=? m).
  - fold (greedy_result m (lines, Some (c ++ " " ++ w)) ws).
    rewrite IH. apply concat_join.
  - fold (greedy_result m ((lines ++ [c])%list, Some w) ws).
    rewrite IH, <- app_assoc. reflexivity.
Qed.

Lemma greedy_lines_concat : forall ws m, ws <> [] ->
  String.concat " " (greedy_lines ws m) = String.concat " " ws.
Proof.
  intros [|w ws] m H; [contradiction|].
  exact (greedy_result_concat m ws [] w).
Qed.

Lemma length_spaces : forall k, String.length (spaces k) = k.
Proof. induction k as [|k IH]; simpl; [reflexivity | now rewrite IH]. Qed.

Lemma slen_padEnd : forall s n, slen (padEnd s n) = Z.max n (slen s).
Proof.
  intros s n. rewrite padEnd_eq. unfold slen in *.
  rewrite str_length_app, length_spaces. lia.
Qed.

Lemma slen_padStart : forall s n, slen (padStart s n) = Z.max n (slen s).
Proof.
  intros s n. rewrite padStart_eq. unfold slen in *.
  rewrite str_length_app, length_spaces. lia.
Qed.

Lemma slen_app : forall a b, slen (a ++ b) = slen a + slen b.
Proof. intros. unfold slen. rewrite str_length_app. lia. Qed.

Lemma slen_String : forall c s, slen (String c s) = 1 + slen s.
Proof. intros. unfold slen. cbn [String.length]. lia. Qed.

(** ** Line items: NaN totals *)

Lemma num_add_isNaN : forall x y, num_lt0 x = false -> num_lt0 y = false ->
  num_isNaN (num_add x y) = (num_isNaN x || num_isNaN y)%bool.
Proof. intros [m1 e1| | |] [m2 e2| | |] H1 H2; simpl in *; congruence. Qed.

Lemma sum_totals_isNaN : forall lis,
  Forall (fun li => num_lt0 (li_total li) = false) lis ->
  num_isNaN (sum_totals lis) = existsb (fun li => num_isNaN (li_total li)) lis.
Proof.
  unfold sum_totals. intros lis.
  assert (G : forall acc, num_lt0 acc = false ->
    Forall (fun li => num_lt0 (li_total li) = false) lis ->
    num_isNaN (fold_left (fun sum li => num_add sum (li_total li)) lis acc)
    = (num_isNaN acc || existsb (fun li => num_isNaN (li_total li)) lis)%bool).
  { induction lis as [|li rest IH]; intros acc Ha HF; simpl.
    - now rewrite Bool.orb_false_r.
    - inversion HF as [|? ? Hli HF']; subst.
      rewrite IH; [|apply num_add_nonneg; assumption | exact HF'].
      rewrite num_add_isNaN by assumption. now rewrite Bool.orb_assoc. }
  intros HF. exact (G num_zero eq_refl HF).
Qed.

Lemma calculateLineItems_inv : forall its lis sub w,
  calculateLineItems its = Some (lis, sub, w) ->
  map_items its = Some (lis, w) /\ sub = sum_totals lis.
Proof.
  intros its lis sub w H. unfold calculateLineItems in H.
  destruct (map_items its) as [[ls ws]|]; [|discriminate].
  cbn [bind_opt fst snd] in H. injection H as <- <- <-. split; reflexivity.
Qed.

Lemma map_items_totals_nonneg : forall its lis w, map_items its = Some (lis, w) ->
  Forall (fun li => num_lt0 (li_total li) = false) lis.
Proof.
  intros its lis w E. destruct (map_items_spec its lis w E) as [_ HF].
  clear E. induction HF as [|it li its' lis' [_ [Ht _]] _ IH]; constructor; assumption.
Qed.

Lemma map_items_calc : forall its lis w, map_items its = Some (lis, w) ->
  Forall2 (fun it li => exists ws, calc_item it = Some (li, ws)) its lis.
Proof.
  induction its as [|it rest IH]; intros lis w H; simpl in H.
  - injection H as <- _. constructor.
  - destruct (calc_item it) as [[l1 w1]|] eqn:E1; [|discriminate].
    cbn [bind_opt] in H.
    destruct (map_items rest) as [[ls ws]|] eqn:E2; [|discriminate].
    cbn [bind_opt fst snd] in H. injection H as <- _.
    constructor; [now exists w1 | exact (IH ls ws eq_refl)].
Qed.

Lemma Forall2_in_l : forall {A B} (P : A -> B -> Prop) l1 l2 x,
  Forall2 P l1 l2 -> In x l1 -> exists y, In y l2 /\ P x y.
Proof.
  intros A B P l1 l2 x HF. induction HF as [|a b l1' l2' Hab _ IH]; intros Hin;
    [destruct Hin|].
  destruct Hin as [<-|Hin].
  - exists b. split; [now left | exact Hab].
  - destruct (IH Hin) as [y [Hy Py]]. exists y. split; [now right | exact Py].
Qed.

(** ** Rows of the text receipt *)

Lemma summary_lines_length : forall cur d taxRate vatRate t summary,
  summary_lines cur d taxRate vatRate t = Some summary ->
  List.length summary = (1 + (if num_gt0 (t_discountAmount t) then 1 else 0)
                          + (if num_gt0 (t_vat t) then 1 else 0)
                          + (if num_gt0 (t_tax t) then 1 else 0))%nat.
Proof.
  intros cur d taxRate vatRate t summary H. unfold summary_lines in H.
  destruct (num_gt0 (t_discountAmount t)).
  - destruct d as [ds|]; [|discriminate]. cbn [bind_opt] in H. injection H as <-.
    destruct (num_gt0 (t_vat t)), (num_gt0 (t_tax t)); reflexivity.
  - cbn [bind_opt] in H. injection H as <-.
    destruct (num_gt0 (t_vat t)), (num_gt0 (t_tax t)); reflexivity.
Qed.

Lemma header_lines_length : forall s a,
  List.length (header_lines s a)
  = (6 + match a with Some a' => if String.eqb a' "" then 0 else 1 | None => 0 end)%nat.
Proof.
  intros s [a|]; [|reflexivity]. unfold header_lines.
  destruct (String.eqb a ""); reflexivity.
Qed.

(** ** Properties of [wrapText], [calculateLineItems] and the text rows *)

(** X1: every line of [wrapText] fits the budget, unless it is one word of
    [text.split(' ')] (trimmed) that is wider than the budget. *)
Theorem wrapText_line_width : forall text maxLength l,
  In l (wrapText text maxLength) ->
  slen l <= maxLength \/ exists w, In w (split_on " " text) /\ l = trim w.
Proof.
  intros text maxLength l H. rewrite wrapText_greedy in H.
  apply in_map_iff in H as [g [<- Hg]].
  change (greedy_lines (split_on " " text) maxLength)
    with (greedy_result maxLength ([], None) (split_on " " text)) in Hg.
  destruct (greedy_result_lines maxLength (split_on " " text) (split_on " " text)
              ([], None)) with (x := g) as [Hw|Hin]; try assumption.
  - intros x [].
  - intros c E. discriminate.
  - intros _. apply split_on_not_nil.
  - intros w Hw. exact Hw.
  - left. pose proof (slen_trim_le g). lia.
  - right. exists g. split; [exact Hin | reflexivity].
Qed.

Lemma wrapText_line_width_witness :
  In "supercalifragilistic" (wrapText "a supercalifragilistic b" 10) /\
  (slen "supercalifragilistic" <= 10 \/
   exists w, In w (split_on " " "a supercalifragilistic b")
             /\ "supercalifragilistic" = trim w).
Proof.
  assert (H : In "supercalifragilistic" (wrapText "a supercalifragilistic b" 10))
    by (vm_compute; right; left; reflexivity).
  split; [exact H | exact (wrapText_line_width _ _ _ H)].
Defined.

(** X2: [wrapText] neither drops nor splits anything: its lines are the trimmed
    pieces of a cut of [text] at some of its spaces. *)
Theorem wrapText_rejoin : forall text maxLength,
  exists pieces, String.concat " " pieces = text
                 /\ wrapText text maxLength = map trim pieces.
Proof.
  intros text maxLength. exists (greedy_lines (split_on " " text) maxLength).
  split; [|apply wrapText_greedy].
  rewrite greedy_lines_concat by apply split_on_not_nil. apply concat_split_on.
Qed.

(** X3: the width of an item row of the text receipt: the quantity field is at
    least 3 wide, the name field at least [maxNameLength] and the total
    field at least 7, plus two separating spaces; a continuation row is 4
    spaces and a field at least [maxNameLength + 3] wide. *)
Theorem item_row_width : forall cur li row rest,
  item_rows_of cur li = Some (row :: rest) ->
  exists qty first,
    js_toString_method (li_quantity li) = Some qty /\
    let itemTotal := cur ++ to_fixed2 (li_total li) in
    let maxNameLength := max_name_length qty itemTotal in
    wrapText (li_name li) maxNameLength = first :: tl (wrapText (li_name li) maxNameLength)
    /\ slen row = Z.max 3 (slen qty) + Z.max maxNameLength (slen first)
                  + Z.max 7 (slen itemTotal) + 2
    /\ map slen rest
       = map (fun l => 4 + Z.max (maxNameLength + 3) (slen l))
             (tl (wrapText (li_name li) maxNameLength)).
Proof.
  intros cur li row rest H. unfold item_rows_of in H.
  destruct (js_toString_method (li_quantity li)) as [qty|] eqn:Q; [|discriminate].
  cbn [bind_opt] in H.
  destruct (wrapText (li_name li) _) as [|first ls] eqn:W; [discriminate|].
  injection H as <- <-. exists qty, first. split; [reflexivity|]. cbv zeta.
  rewrite W. split; [reflexivity|]. split.
  - repeat rewrite ?slen_app, ?slen_String, ?slen_padEnd, ?slen_padStart.
    cbn [slen]. lia.
  - rewrite map_map. apply map_ext. intros l. unfold continuation_row.
    rewrite slen_app, slen_padEnd. reflexivity.
Qed.

Lemma item_row_width_witness :
  item_rows_of "$" milk_line_item = Some ["2   Milk                       $7.00"] /\
  slen "2   Milk                       $7.00" = 36 /\
  exists qty first,
    js_toString_method (li_quantity milk_line_item) = Some qty /\
    let itemTotal := "$" ++ to_fixed2 (li_total milk_line_item) in
    let maxNameLength := max_name_length qty itemTotal in
    wrapText (li_name milk_line_item) maxNameLength
      = first :: tl (wrapText (li_name milk_line_item) maxNameLength)
    /\ slen "2   Milk                       $7.00"
       = Z.max 3 (slen qty) + Z.max maxNameLength (slen first)
         + Z.max 7 (slen itemTotal) + 2
    /\ map slen []
       = map (fun l => 4 + Z.max (maxNameLength + 3) (slen l))
             (tl (wrapText (li_name milk_line_item) maxNameLength)).
Proof.
  assert (H : item_rows_of "$" milk_line_item = Some ["2   Milk                       $7.00"])
    by (vm_compute; reflexivity).
  split; [exact H|]. split; [reflexivity|].
  exact (item_row_width "$" milk_line_item _ _ H).
Defined.

(** X4: the text receipt has 15 lines, one more for a company address, one per
    wrapped item name line, and one each for the Discount, VAT and Tax
    lines when the discount amount, the VAT and the tax are positive. *)
Theorem receipt_line_count : forall rd lines w,
  receipt_lines rd = Some (lines, w) ->
  exists lis sub,
    calculateLineItems (items rd) = Some (lis, sub, w) /\
    let t := receipt_totals rd sub in
    List.length lines
    = (15 + match companyAddress rd with
            | Some a => if String.eqb a "" then 0 else 1
            | None => 0
            end
       + list_sum (map (fun li => List.length (item_name_lines (rd_currency rd) li)) lis)
       + (if num_gt0 (t_discountAmount t) then 1 else 0)
       + (if num_gt0 (t_vat t) then 1 else 0)
       + (if num_gt0 (t_tax t) then 1 else 0))%nat.
Proof.
  intros rd lines w H.
  destruct (receipt_lines_inv rd lines w H)
    as [lis [sub [rows [summary [E1 [E2 [E3 E4]]]]]]].
  exists lis, sub. split; [exact E1|]. cbv zeta. rewrite E4.
  rewrite !length_app, header_lines_length, (item_rows_length _ _ _ E2),
    (summary_lines_length _ _ _ _ _ _ E3).
  unfold footer_lines. cbn [List.length]. lia.
Qed.

Lemma receipt_line_count_witness :
  receipt_lines coffee_shop = Some (coffee_shop_lines, coffee_shop_warnings) /\
  List.length coffee_shop_lines = 22%nat /\
  exists lis sub,
    calculateLineItems (items coffee_shop) = Some (lis, sub, coffee_shop_warnings) /\
    let t := receipt_totals coffee_shop sub in
    List.length coffee_shop_lines
    = (15 + match companyAddress coffee_shop with
            | Some a => if String.eqb a "" then 0 else 1
            | None => 0
            end
       + list_sum (map (fun li => List.length (item_name_lines (rd_currency coffee_shop) li)) lis)
       + (if num_gt0 (t_discountAmount t) then 1 else 0)
       + (if num_gt0 (t_vat t) then 1 else 0)
       + (if num_gt0 (t_tax t) then 1 else 0))%nat.
Proof.
  assert (H : receipt_lines coffee_shop = Some (coffee_shop_lines, coffee_shop_warnings))
    by (vm_compute; reflexivity).
  split; [exact H|]. split; [vm_compute; reflexivity|].
  exact (receipt_line_count coffee_shop _ _ H).
Defined.

(** X5: the subtotal is NaN exactly when some line total is NaN (no line total
    is [-Infinity], so two infinite totals never cancel). *)
Theorem subtotal_nan : forall its lis sub w,
  calculateLineItems its = Some (lis, sub, w) ->
  num_isNaN sub = existsb (fun li => num_isNaN (li_total li)) lis.
Proof.
  intros its lis sub w H. destruct (calculateLineItems_inv _ _ _ _ H) as [E ->].
  apply sum_totals_isNaN. exact (map_items_totals_nonneg _ _ _ E).
Qed.

Lemma subtotal_nan_witness :
  match calculateLineItems [mkItem "Milk" (JStr "2 pcs") (JNum (Dec 350 (-2)));
                            mkItem "Bread" (JNum (Dec 1 0)) (JNum (Dec 275 (-2)))] with
  | Some (lis, sub, w) =>
      num_isNaN sub = true /\ num_isNaN sub = existsb (fun li => num_isNaN (li_total li)) lis
  | None => False
  end.
Proof.
  destruct (calculateLineItems _) as [[[lis sub] w]|] eqn:E;
    [|vm_compute in E; discriminate].
  split; [|exact (subtotal_nan _ _ _ _ E)].
  vm_compute in E. injection E as <- <- <-. reflexivity.
Defined.

(** X6: the check reads a quantity with [parseFloat] but the total multiplies
    the field itself: a quantity string that [parseFloat] reads as a
    non-negative number but [Number] does not (["2 pcs"]) passes the check,
    keeps its fields, gets total NaN and makes the subtotal NaN. *)
Theorem string_quantity_nan_total : forall its lis sub w nm s pr,
  calculateLineItems its = Some (lis, sub, w) ->
  In (mkItem nm (JStr s) pr) its ->
  item_invalid (mkItem nm (JStr s) pr) = false ->
  string_to_number s = NaN ->
  In (mkLineItem nm (JStr s) pr NaN) lis /\ num_isNaN sub = true.
Proof.
  intros its lis sub w nm s pr H Hin Hv Hs.
  destruct (calculateLineItems_inv _ _ _ _ H) as [E ->].
  destruct (Forall2_in_l _ _ _ _ (map_items_calc _ _ _ E) Hin) as [li [Hli [ws Hc]]].
  destruct (calc_item_spec _ _ _ Hc) as [Hn [_ Hr]]. rewrite Hv in Hr.
  destruct Hr as [Hq [Hp [_ Hm]]]. cbn [quantity price name] in *.
  destruct (js_mul_number _ _ _ Hm) as [x [p [Ex [_ Ht]]]].
  cbn [js_ToNumber] in Ex. rewrite Hs in Ex. injection Ex as <-.
  cbn [num_mul] in Ht.
  assert (Eli : li = mkLineItem nm (JStr s) pr NaN).
  { destruct li as [a b c d]. cbn in *. congruence. }
  split; [now rewrite <- Eli|].
  rewrite sum_totals_isNaN by exact (map_items_totals_nonneg _ _ _ E).
  apply existsb_exists. exists li. split; [exact Hli | now rewrite Ht].
Qed.

Lemma string_quantity_nan_total_witness :
  match calculateLineItems [mkItem "Milk" (JStr "2 pcs") (JNum (Dec 350 (-2)))] with
  | Some (lis, sub, w) =>
      In (mkItem "Milk" (JStr "2 pcs") (JNum (Dec 350 (-2))))
         [mkItem "Milk" (JStr "2 pcs") (JNum (Dec 350 (-2)))] /\ item_invalid (mkItem "Milk" (JStr "2 pcs") (JNum (Dec 350 (-2)))) = false /\ string_to_number "2 pcs" = NaN /\ In (mkLineItem "Milk" (JStr "2 pcs") (JNum (Dec 350 (-2))) NaN) lis /\ num_isNaN sub = true
  | None => False
  end.
Proof.
  destruct (calculateLineItems _) as [[[lis sub] w]|] eqn:E;
    [|vm_compute in E; discriminate].
  assert (H1 : In (mkItem "Milk" (JStr "2 pcs") (JNum (Dec 350 (-2))))
                  [mkItem "Milk" (JStr "2 pcs") (JNum (Dec 350 (-2)))]) by (left; reflexivity).
  assert (H2 : item_invalid (mkItem "Milk" (JStr "2 pcs") (JNum (Dec 350 (-2)))) = false)
    by (vm_compute; reflexivity).
  assert (H3 : string_to_number "2 pcs" = NaN) by (vm_compute; reflexivity).
  split; [exact H1|]. split; [exact H2|]. split; [exact H3|].
  exact (string_quantity_nan_total _ _ _ _ _ _ _ E H1 H2 H3).
Defined.

(** ** The image of [generateReceiptImage] *)

(** *** The image wrap *)

Lemma image_wrap_step_rel : forall measureText W code spec w,
  wrap_rel code spec ->
  wrap_rel (image_wrap_step measureText W code w)
           (greedy_sep_step "  " (fun t => Qle_bool (measureText t) W) spec w).
Proof.
  intros measureText W [lc cl] [ls [c|]] w [H1 H2]; simpl in H1, H2; subst.
  - unfold image_wrap_step, greedy_sep_step.
    assert (Hne : String.eqb (c ++ " ") "" = false) by (destruct c; reflexivity).
    assert (Hpos : (0 <? slen (c ++ " ")) = true).
    { apply Z.ltb_lt. unfold slen. rewrite str_length_app. simpl. lia. }
    assert (Ht : ((c ++ " ") ++ " " ++ w) = c ++ "  " ++ w)
      by (rewrite str_app_assoc; reflexivity).
    rewrite Hne, Hpos, Ht, Bool.andb_true_r.
    destruct (Qle_bool (measureText (c ++ "  " ++ w)) W); cbn [negb].
    + split; reflexivity.
    + split; cbn [fst snd]; [|reflexivity].
      rewrite map_app. cbn [map]. now rewrite trim_app_space.
  - unfold image_wrap_step, greedy_sep_step. cbn.
    rewrite Bool.andb_false_r. split; reflexivity.
Qed.

Lemma image_wrap_fold_rel : forall measureText W words code spec,
  wrap_rel code spec ->
  wrap_rel (fold_left (image_wrap_step measureText W) words code)
           (fold_left (greedy_sep_step "  " (fun t => Qle_bool (measureText t) W))
              words spec).
Proof.
  intros measureText W words. induction words as [|w ws IH]; intros code spec H;
    simpl; [exact H|].
  apply IH, image_wrap_step_rel, H.
Qed.

Lemma image_wrap_greedy : forall measureText name W,
  image_name_lines measureText name W
  = map trim (greedy_sep_lines "  " (fun t => Qle_bool (measureText t) W)
                (split_on " " name)).
Proof.
  intros measureText name W. unfold image_name_lines, greedy_sep_lines.
  pose proof (image_wrap_fold_rel measureText W (split_on " " name) ([], "") ([], None))
    as H.
  destruct (fold_left (image_wrap_step measureText W) (split_on " " name) ([], ""))
    as [lc cl].
  destruct (fold_left (greedy_sep_step "  " _) (split_on " " name) ([], None))
    as [ls cur].
  destruct H as [H1 H2]; [split; reflexivity|]. simpl in H1, H2; subst.
  rewrite map_app. simpl. destruct cur; simpl; [now rewrite trim_app_space|].
  reflexivity.
Qed.

Lemma greedy_sep_fold_fit : forall sep fits rest c,
  (forall k, (1 <= k <= List.length rest)%nat ->
     fits (c ++ sep ++ String.concat sep (firstn k rest)) = true) ->
  fold_left (greedy_sep_step sep fits) rest ([], Some c)
  = ([], Some (String.concat sep (c :: rest))).
Proof.
  intros sep fits rest. induction rest as [|w r IH]; intros c H; [reflexivity|].
  cbn [fold_left].
  assert (Hw : fits (c ++ sep ++ w) = true) by exact (H 1%nat ltac:(cbn; lia)).
  change (greedy_sep_step sep fits ([], Some c) w)
    with (if fits (c ++ sep ++ w) then ([] : list string, Some (c ++ sep ++ w))
          else (([] ++ [c])%list, Some w)).
  rewrite Hw, IH.
  - exact (f_equal (fun x => ([] : list string, Some x)) (concat_join sep [] c w r)).
  - intros k Hk. rewrite !str_app_assoc.
    specialize (H (S k)). cbn [firstn List.length] in H.
    rewrite concat_cons_not_nil in H; [apply H; lia|].
    destruct k as [|k]; [lia|]. destruct r; cbn in *; [lia|discriminate].
Qed.

Lemma concat_firstn_prefix : forall sep k ws,
  exists x, (String.concat sep (firstn k ws) ++ x)%string = String.concat sep ws.
Proof.
  intros sep k ws. revert k. induction ws as [|w r IH]; intros k.
  - exists "". destruct k; reflexivity.
  - destruct k as [|k]; [exists (String.concat sep (w :: r)); reflexivity|].
    cbn [firstn]. destruct r as [|v r'].
    + exists "". destruct k; cbn; apply str_app_nil_r.
    + destruct k as [|k].
      * exists (sep ++ String.concat sep (v :: r')). reflexivity.
      * destruct (IH (S k)) as [x Hx]. exists x.
        rewrite (concat_cons_not_nil sep w (v :: r')) by discriminate.
        cbn [firstn] in *.
        rewrite (concat_cons_not_nil sep w (v :: firstn k r')) by discriminate.
        rewrite !str_app_assoc, Hx. reflexivity.
Qed.

Lemma concat_split_aux_double : forall s cur,
  String.concat "  " (split_aux " " s cur) = cur ++ double_spaces s.
Proof.
  intros s. induction s as [|x r IH]; intros cur; simpl.
  - symmetry. apply str_app_nil_r.
  - destruct (Ascii.eqb x " ") eqn:E.
    + rewrite concat_cons_not_nil by apply split_aux_not_nil.
      rewrite IH. reflexivity.
    + rewrite IH, str_app_assoc. reflexivity.
Qed.

(** ** The canvas *)

Lemma image_name_lines_cons : forall measureText name W,
  exists x r, image_name_lines measureText name W = x :: r.
Proof.
  intros. unfold image_name_lines.
  destruct (fold_left _ _ _) as [[|y l] c];
    [exists (trim c), [] | exists y, (l ++ [trim c])%list]; reflexivity.
Qed.

Lemma draw_name_rest_spec : forall ls st,
  currentY (draw_name_rest ls st) = currentY st + 20 * Z.of_nat (List.length ls)
  /\ exists l, drawn (draw_name_rest ls st) = (drawn st ++ l)%list.
Proof.
  induction ls as [|x ls IH]; intros st; cbn [draw_name_rest].
  - split; [cbn; lia|]. exists []. now rewrite app_nil_r.
  - destruct (IH (advance textLineHeight (draw (FillText ("   " ++ x) padding ALeft) st)))
      as [H1 [l H2]].
    rewrite H1, H2. unfold advance, draw, textLineHeight.
    cbn [currentY drawn List.length]. split; [lia|].
    eexists. rewrite <- app_assoc. reflexivity.
Qed.

Lemma draw_item_spec : forall m cur st li st',
  draw_item m cur st li = Some st' ->
  currentY st' = currentY st + 20 * Z.of_nat (List.length (image_item_name_lines m cur li))
  /\ exists l, drawn st' = (drawn st ++ l)%list.
Proof.
  intros m cur st li st' H. unfold draw_item, image_item_name_lines in *.
  destruct (js_ToString (li_quantity li)) as [q|]; [|discriminate].
  cbn [bind_opt] in H. injection H as <-.
  destruct (image_name_lines_cons m (li_name li)
              (image_max_name_width m (cur ++ to_fixed2 (li_total li)) (q ++ "x")))
    as [x [r E]].
  rewrite E. cbn [hd tl List.length].
  set (st1 := advance textLineHeight _).
  destruct (draw_name_rest_spec r st1) as [H1 [l H2]].
  rewrite H1, H2. subst st1. unfold advance, draw, textLineHeight.
  cbn [currentY drawn]. split; [lia|].
  eexists. rewrite <- !app_assoc. reflexivity.
Qed.

Lemma draw_items_spec : forall m cur lis st st',
  draw_items m cur lis st = Some st' ->
  currentY st' = currentY st + 20 * Z.of_nat
    (list_sum (map (fun li => List.length (image_item_name_lines m cur li)) lis))
  /\ exists l, drawn st' = (drawn st ++ l)%list.
Proof.
  intros m cur lis. induction lis as [|li lis IH]; intros st st' H;
    cbn [draw_items] in H.
  - injection H as <-. cbn [map list_sum]. split; [lia|].
    exists []. now rewrite app_nil_r.
  - destruct (draw_item m cur st li) as [s1|] eqn:E1; [|discriminate].
    cbn [bind_opt] in H.
    destruct (draw_item_spec _ _ _ _ _ E1) as [H1 [l1 H2]].
    destruct (IH _ _ H) as [H3 [l2 H4]].
    split.
    + rewrite H3, H1. cbn [map list_sum]. lia.
    + exists (l1 ++ l2)%list. rewrite H4, H2, app_assoc. reflexivity.
Qed.

Lemma draw_summary_spec : forall cur d tr vr t st st',
  draw_summary cur d tr vr t st = Some st' ->
  currentY st' = currentY st + 20
    + (if num_gt0 (t_discountAmount t) then 20 else 0)
    + (if num_gt0 (t_vat t) then 20 else 0)
    + (if num_gt0 (t_tax t) then 20 else 0)
  /\ exists l, drawn st' = (drawn st ++ l)%list.
Proof.
  intros cur d tr vr t st st' H. unfold draw_summary in H.
  destruct (num_gt0 (t_discountAmount t)) eqn:Ed;
    [destruct d as [ds|]; [|discriminate]|]; cbn [bind_opt] in H;
    injection H as <-;
    destruct (num_gt0 (t_vat t)), (num_gt0 (t_tax t));
    unfold drawSubTotalLine, advance, draw, textLineHeight; cbn [currentY drawn];
    (split; [lia | eexists; rewrite <- ?app_assoc; reflexivity]).
Qed.

Lemma draw_qr_spec : forall ql q st st',
  draw_qr ql q st = Some st' ->
  currentY st' = currentY st + (if qr_active q then qr_code_size q + 10 else 0)
  /\ exists l, drawn st' = (drawn st ++ l)%list.
Proof.
  intros ql [[[data|] sz]|] st st' H; unfold draw_qr, qr_active, truthy_str in *;
    cbn [qrData] in *.
  - destruct (String.eqb data "") eqn:E; cbn [negb].
    + injection H as <-. split; [lia|]. exists []. now rewrite app_nil_r.
    + destruct (ql data _); [|discriminate]. injection H as <-. cbn.
      split; [lia|]. eexists; reflexivity.
  - injection H as <-. split; [lia|]. exists []. now rewrite app_nil_r.
  - injection H as <-. split; [lia|]. exists []. now rewrite app_nil_r.
Qed.

Lemma draw_footer_spec : forall cur t st,
  currentY (draw_footer cur t st) = currentY st + 100
  /\ In (FillText "Thank you for your purchase!" 225 ACenter (currentY st + 70))
        (drawn (draw_footer cur t st))
  /\ exists l, drawn (draw_footer cur t st) = (drawn st ++ l)%list.
Proof.
  intros. unfold draw_footer, drawSubTotalLine, drawLine, advance, draw, textLineHeight.
  cbn [currentY drawn].
  split; [lia|]. split.
  - apply in_or_app. right. left. f_equal. lia.
  - eexists. rewrite <- !app_assoc. reflexivity.
Qed.

Lemma draw_store_spec : forall s a st,
  currentY (draw_store s a st) = currentY st + 40 + (if truthy_str a then 20 else 0)
  /\ exists l, drawn (draw_store s a st) = (drawn st ++ l)%list.
Proof.
  intros s [a|] st; unfold draw_store, truthy_str, advance, draw; cbn.
  - destruct (String.eqb a ""); cbn; (split; [lia|]);
      eexists; rewrite <- ?app_assoc; reflexivity.
  - split; [lia|]. eexists; reflexivity.
Qed.

Lemma draw_items_header_spec : forall st,
  currentY (draw_items_header st) = currentY st + 60
  /\ exists l, drawn (draw_items_header st) = (drawn st ++ l)%list.
Proof.
  intros. unfold draw_items_header, drawLine, advance, draw, textLineHeight.
  cbn [currentY drawn].
  split; [lia|]. eexists. rewrite <- !app_assoc. reflexivity.
Qed.

Lemma draw_logo_spec : forall le p st,
  currentY (fst (draw_logo le p st)) = currentY st + logo_height le p
  /\ snd (draw_logo le p st) = logo_warnings le p
  /\ exists l, drawn (fst (draw_logo le p st)) = (drawn st ++ l)%list.
Proof.
  intros le [p|] st; unfold logo_warnings, logo_height, draw_logo.
  - destruct (String.eqb p ""); [|destruct (le p)]; cbn;
      (split; [lia|]); (split; [reflexivity|]);
      first [exists []; now rewrite app_nil_r | eexists; reflexivity].
  - cbn. split; [lia|]. split; [reflexivity|]. exists []. now rewrite app_nil_r.
Qed.

Lemma drawLine_spec : forall st,
  currentY (drawLine st) = currentY st + 20
  /\ exists l, drawn (drawLine st) = (drawn st ++ l)%list.
Proof.
  intros. unfold drawLine, advance, draw, textLineHeight. cbn [currentY drawn].
  split; [lia|]. eexists; reflexivity.
Qed.

Lemma image_layout : forall m le ql rd o cmds est fin w,
  generateReceiptImage m le ql rd o = Some (cmds, est, fin, w) ->
  exists lis sub ws,
    calculateLineItems (items rd) = Some (lis, sub, ws) /\
    let t := receipt_totals rd sub in
    let qrpart := if qr_active (qrCode o) then qr_code_size (qrCode o) + 10 else 0 in
    est = 500 + 40 * Z.of_nat (List.length lis) + qr_code_height (qrCode o) /\
    fin = 280
          + 20 * Z.of_nat (list_sum (map (fun li =>
                   List.length (image_item_name_lines m (rd_currency rd) li)) lis))
          + logo_height le (logoPath o)
          + (if truthy_str (companyAddress rd) then 20 else 0)
          + (if num_gt0 (t_discountAmount t) then 20 else 0)
          + (if num_gt0 (t_vat t) then 20 else 0)
          + (if num_gt0 (t_tax t) then 20 else 0)
          + qrpart /\
    In (FillText "Thank you for your purchase!" 225 ACenter (fin - 50 - qrpart)) cmds /\
    w = (ws ++ logo_warnings le (logoPath o))%list.
Proof.
  intros m le ql rd o cmds est fin w H. unfold generateReceiptImage in H.
  destruct (calculateLineItems (items rd)) as [[[lis sub] ws]|] eqn:Ec; [|discriminate].
  cbv beta iota zeta delta [bind_opt] in H.
  pose proof (draw_logo_spec le (logoPath o) (mkCanvas padding [FillRect 0 (500 + Z.of_nat (List.length lis) * textLineHeight * 2 + qr_code_height (qrCode o))])) as [L1 [L2 _]].
  destruct (draw_logo le (logoPath o) (mkCanvas padding [FillRect 0 (500 + Z.of_nat (List.length lis) * textLineHeight * 2 + qr_code_height (qrCode o))])) as [st1 lw].
  cbn [fst snd currentY] in L1, L2.
  destruct (draw_items m _ lis _) as [st3|] eqn:E3; [|discriminate].
  cbv beta iota zeta delta [bind_opt] in H.
  destruct (draw_summary _ _ _ _ _ _) as [st4|] eqn:E4; [|discriminate].
  cbv beta iota zeta delta [bind_opt] in H.
  destruct (draw_qr ql (qrCode o) _) as [st5|] eqn:E5; [|discriminate].
  cbv beta iota zeta delta [bind_opt] in H.
  remember (500 + Z.of_nat (List.length lis) * textLineHeight * 2
            + qr_code_height (qrCode o)) as e eqn:He in H.
  remember (currentY st5 + padding) as f eqn:Hf in H.
  injection H as <- <- <- <-.
  exists lis, sub, ws. split; [reflexivity|]. cbv zeta.
  destruct (draw_store_spec (default "YOUR STORE NAME" (storeName rd)) (companyAddress rd) st1)
    as [S1 _].
  destruct (draw_items_header_spec
              (draw_store (default "YOUR STORE NAME" (storeName rd)) (companyAddress rd) st1))
    as [S2 _].
  destruct (draw_items_spec _ _ _ _ _ E3) as [S3 _].
  destruct (drawLine_spec st3) as [S4 _].
  destruct (draw_summary_spec _ _ _ _ _ _ _ E4) as [S5 _].
  destruct (draw_footer_spec (rd_currency rd) (receipt_totals rd sub) st4) as [S6 [T6 _]].
  destruct (draw_qr_spec _ _ _ _ E5) as [S7 [l7 D7]].
  unfold textLineHeight, padding in *.
  split; [lia|]. split; [lia|]. split.
  - rewrite D7. apply in_or_app. left.
    replace (f - 50
             - (if qr_active (qrCode o) then qr_code_size (qrCode o) + 10 else 0))
      with (currentY st4 + 70) by lia.
    exact T6.
  - rewrite L2. reflexivity.
Qed.

Lemma logo_height_range : forall le p, 0 <= logo_height le p <= 90.
Proof.
  intros le [p|]; unfold logo_height; [|lia].
  destruct (String.eqb p ""); [lia|]. destruct (le p); lia.
Qed.

Lemma qr_height_part : forall q,
  (if qr_active q then qr_code_size q + 10 else 0) + 10
  <= qr_code_height q + 10 + (if qr_active q then 10 else 0).
Proof. intros q. unfold qr_code_height. destruct (qr_active q); lia. Qed.

(** X7: the auto-breaking loop of the items of [generateReceiptImage] is
    the greedy wrap of the words of [item.name.split(' ')] with a separator
    of two spaces (the loop puts [' '] after each word and the test line
    adds another), a word joining the line while [measureText] of the
    joined line is at most [maxNameWidth]; each line is trimmed. *)
Theorem image_name_lines_greedy : forall measureText name maxNameWidth,
  image_name_lines measureText name maxNameWidth
  = map trim (greedy_sep_lines "  "
                (fun t => Qle_bool (measureText t) maxNameWidth)
                (split_on " " name)).
Proof. intros. apply image_wrap_greedy. Qed.

(** X8: when [measureText] does not shrink as a text grows and the name
    with every space doubled fits [maxNameWidth], the image draws the name
    on one line, with every space doubled. *)
Theorem image_name_single_line : forall measureText name maxNameWidth,
  (forall a b, (measureText a <= measureText (a ++ b))%Q) ->
  (measureText (double_spaces name) <= maxNameWidth)%Q ->
  image_name_lines measureText name maxNameWidth = [trim (double_spaces name)].
Proof.
  intros m name W Hmono Hfit. rewrite image_wrap_greedy. unfold greedy_sep_lines.
  assert (Hd : String.concat "  " (split_on " " name) = double_spaces name)
    by exact (concat_split_aux_double name "").
  destruct (split_on " " name) as [|w0 rest] eqn:Ew;
    [exfalso; exact (split_on_not_nil " " name Ew)|].
  cbn [fold_left].
  change (greedy_sep_step "  " (fun t => Qle_bool (m t) W) ([], None) w0)
    with ([] : list string, Some w0).
  rewrite greedy_sep_fold_fit.
  - cbn [List.app map default]. rewrite Hd. reflexivity.
  - intros k Hk. apply Qle_bool_iff.
    destruct (concat_firstn_prefix "  " (S k) (w0 :: rest)) as [x Hx].
    rewrite Hd in Hx. cbn [firstn] in Hx.
    rewrite concat_cons_not_nil in Hx
      by (destruct k as [|k]; [lia|]; destruct rest; cbn in *; [lia|discriminate]).
    apply Qle_trans with (m (double_spaces name)); [|exact Hfit].
    rewrite <- Hx. apply Hmono.
Qed.

Lemma image_name_single_line_witness :
  (forall a b, (courier14 a <= courier14 (a ++ b))%Q) /\
  (courier14 (double_spaces "Large Latte") <= 300)%Q /\
  image_name_lines courier14 "Large Latte" 300 = [trim (double_spaces "Large Latte")].
Proof.
  assert (H1 : forall a b, (courier14 a <= courier14 (a ++ b))%Q).
  { intros a b. unfold courier14, slen. rewrite str_length_app.
    apply Qmult_le_compat_r; [rewrite <- Zle_Qle; lia | unfold Qle; cbn; lia]. }
  assert (H2 : (courier14 (double_spaces "Large Latte") <= 300)%Q)
    by (apply Qle_bool_iff; vm_compute; reflexivity).
  split; [exact H1|]. split; [exact H2|].
  exact (image_name_single_line courier14 "Large Latte" 300 H1 H2).
Defined.

(** X9: the temporary canvas is [500 + 40 n + qrCodeHeight] high for [n]
    line items; the final canvas is 280 high, plus 20 for each drawn name
    line, 90 for a logo that loads, 20 for an address and for each of the
    Discount, VAT and Tax lines, and [qrCodeSize + 10] for a QR code.  The
    warnings are those of [calculateLineItems], then the logo warning. *)
Theorem image_canvas_heights : forall measureText logoError qrLoads rd o cmds est fin w,
  generateReceiptImage measureText logoError qrLoads rd o = Some (cmds, est, fin, w) ->
  exists lis sub ws,
    calculateLineItems (items rd) = Some (lis, sub, ws) /\
    let t := receipt_totals rd sub in
    est = 500 + 40 * Z.of_nat (List.length lis) + qr_code_height (qrCode o) /\
    fin = 280
          + 20 * Z.of_nat (list_sum (map (fun li =>
                   List.length (image_item_name_lines measureText (rd_currency rd) li)) lis))
          + logo_height logoError (logoPath o)
          + (if truthy_str (companyAddress rd) then 20 else 0)
          + (if num_gt0 (t_discountAmount t) then 20 else 0)
          + (if num_gt0 (t_vat t) then 20 else 0)
          + (if num_gt0 (t_tax t) then 20 else 0)
          + (if qr_active (qrCode o) then qr_code_size (qrCode o) + 10 else 0) /\
    w = (ws ++ logo_warnings logoError (logoPath o))%list.
Proof.
  intros m le ql rd o cmds est fin w H.
  destruct (image_layout _ _ _ _ _ _ _ _ _ H) as [lis [sub [ws [E [H1 [H2 [_ H4]]]]]]].
  exists lis, sub, ws. split; [exact E|]. split; [exact H1|]. split; [exact H2|exact H4].
Qed.

Lemma image_canvas_heights_witness :
  match generateReceiptImage courier14 (fun _ => None) (fun _ _ => true)
          coffee_shop no_image_options with
  | Some (cmds, est, fin, w) =>
      est = 620 /\ fin = 400 /\
      exists lis sub ws,
        calculateLineItems (items coffee_shop) = Some (lis, sub, ws) /\
        let t := receipt_totals coffee_shop sub in
        est = 500 + 40 * Z.of_nat (List.length lis) + qr_code_height (qrCode no_image_options) /\
        fin = 280
              + 20 * Z.of_nat (list_sum (map (fun li =>
                       List.length (image_item_name_lines courier14 (rd_currency coffee_shop) li)) lis))
              + logo_height (fun _ => None) (logoPath no_image_options)
              + (if truthy_str (companyAddress coffee_shop) then 20 else 0)
              + (if num_gt0 (t_discountAmount t) then 20 else 0)
              + (if num_gt0 (t_vat t) then 20 else 0)
              + (if num_gt0 (t_tax t) then 20 else 0)
              + (if qr_active (qrCode no_image_options)
                 then qr_code_size (qrCode no_image_options) + 10 else 0) /\
        w = (ws ++ logo_warnings (fun _ => None) (logoPath no_image_options))%list
  | None => False
  end.
Proof.
  destruct (generateReceiptImage _ _ _ _ _) as [[[[cmds est] fin] w]|] eqn:E;
    [|vm_compute in E; discriminate].
  split; [vm_compute in E; congruence|]. split; [vm_compute in E; congruence|].
  exact (image_canvas_heights _ _ _ _ _ _ _ _ _ E).
Defined.

(** X10: when the items take at most [2 n + 2] name lines in all, the
    final canvas is no taller than the temporary one. *)
Theorem image_within_estimate : forall measureText logoError qrLoads rd o
                                       cmds est fin w lis sub ws,
  generateReceiptImage measureText logoError qrLoads rd o = Some (cmds, est, fin, w) ->
  calculateLineItems (items rd) = Some (lis, sub, ws) ->
  (list_sum (map (fun li => List.length (image_item_name_lines measureText (rd_currency rd) li))
                 lis) <= 2 * List.length lis + 2)%nat ->
  fin <= est.
Proof.
  intros m le ql rd o cmds est fin w lis sub ws H Ec HL.
  destruct (image_layout _ _ _ _ _ _ _ _ _ H)
    as [lis' [sub' [ws' [E [H1 [H2 _]]]]]].
  rewrite Ec in E. injection E as <- <- <-. cbv zeta in H1, H2.
  pose proof (logo_height_range le (logoPath o)).
  pose proof (qr_height_part (qrCode o)).
  destruct (truthy_str (companyAddress rd)),
    (num_gt0 (t_discountAmount (receipt_totals rd sub))),
    (num_gt0 (t_vat (receipt_totals rd sub))),
    (num_gt0 (t_tax (receipt_totals rd sub))),
    (qr_active (qrCode o)); lia.
Qed.

Lemma image_within_estimate_witness :
  match generateReceiptImage courier14 (fun _ => None) (fun _ _ => true)
          coffee_shop no_image_options, calculateLineItems (items coffee_shop) with
  | Some (cmds, est, fin, w), Some (lis, sub, ws) =>
      (list_sum (map (fun li => List.length (image_item_name_lines courier14
                                  (rd_currency coffee_shop) li)) lis)
       <= 2 * List.length lis + 2)%nat /\ fin <= est
  | _, _ => False
  end.
Proof.
  destruct (generateReceiptImage _ _ _ _ _) as [[[[cmds est] fin] w]|] eqn:E;
    [|vm_compute in E; discriminate].
  destruct (calculateLineItems _) as [[[lis sub] ws]|] eqn:Ec;
    [|vm_compute in Ec; discriminate].
  assert (HL : (list_sum (map (fun li => List.length (image_item_name_lines courier14
                                  (rd_currency coffee_shop) li)) lis)
                <= 2 * List.length lis + 2)%nat)
    by (vm_compute in Ec; injection Ec as <- <- <-; vm_compute; lia).
  split; [exact HL|].
  exact (image_within_estimate _ _ _ _ _ _ _ _ _ _ _ _ E Ec HL).
Defined.

(** X11: without a QR code, when the items take at least [2 n + 14] name
    lines in all, the thank-you message is drawn at a [y] at or below the
    bottom of the temporary canvas, 50 above the bottom of the final
    canvas: the copy into the final canvas loses it. *)
Theorem image_thank_you_clipped : forall measureText logoError qrLoads rd o
                                         cmds est fin w lis sub ws,
  generateReceiptImage measureText logoError qrLoads rd o = Some (cmds, est, fin, w) ->
  calculateLineItems (items rd) = Some (lis, sub, ws) ->
  qr_active (qrCode o) = false ->
  (2 * List.length lis + 14
   <= list_sum (map (fun li => List.length (image_item_name_lines measureText
                                 (rd_currency rd) li)) lis))%nat ->
  exists y, In (FillText "Thank you for your purchase!" 225 ACenter y) cmds
            /\ est <= y /\ y + 50 = fin.
Proof.
  intros m le ql rd o cmds est fin w lis sub ws H Ec Hq HL.
  destruct (image_layout _ _ _ _ _ _ _ _ _ H)
    as [lis' [sub' [ws' [E [H1 [H2 [H3 _]]]]]]].
  rewrite Ec in E. injection E as <- <- <-. cbv zeta in H1, H2, H3.
  rewrite Hq in H2, H3. unfold qr_code_height in H1. rewrite Hq in H1.
  exists (fin - 50 - 0). split; [exact H3|].
  pose proof (logo_height_range le (logoPath o)).
  destruct (truthy_str (companyAddress rd)),
    (num_gt0 (t_discountAmount (receipt_totals rd sub))),
    (num_gt0 (t_vat (receipt_totals rd sub))),
    (num_gt0 (t_tax (receipt_totals rd sub))); lia.
Qed.

Lemma image_thank_you_clipped_witness :
  match generateReceiptImage courier14 (fun _ => None) (fun _ _ => true)
          long_name_receipt no_image_options, calculateLineItems (items long_name_receipt) with
  | Some (cmds, est, fin, w), Some (lis, sub, ws) =>
      qr_active (qrCode no_image_options) = false /\
      (2 * List.length lis + 14
       <= list_sum (map (fun li => List.length (image_item_name_lines courier14
                                     (rd_currency long_name_receipt) li)) lis))%nat /\
      exists y, In (FillText "Thank you for your purchase!" 225 ACenter y) cmds
                /\ est <= y /\ y + 50 = fin
  | _, _ => False
  end.
Proof.
  destruct (generateReceiptImage _ _ _ _ _) as [[[[cmds est] fin] w]|] eqn:E;
    [|vm_compute in E; discriminate].
  destruct (calculateLineItems _) as [[[lis sub] ws]|] eqn:Ec;
    [|vm_compute in Ec; discriminate].
  assert (Hq : qr_active (qrCode no_image_options) = false) by reflexivity.
  assert (HL : (2 * List.length lis + 14
                <= list_sum (map (fun li => List.length (image_item_name_lines courier14
                                     (rd_currency long_name_receipt) li)) lis))%nat)
    by (vm_compute in Ec; injection Ec as <- <- <-; vm_compute; lia).
  split; [exact Hq|]. split; [exact HL|].
  exact (image_thank_you_clipped _ _ _ _ _ _ _ _ _ _ _ _ E Ec Hq HL).
Defined.

(** X12: a logo that fails to load changes nothing but the warnings: the
    result is the one without [logoPath], with the warning added. *)
Theorem logo_failure_only_warns : forall measureText logoError qrLoads rd o p msg,
  logoPath o = Some p -> p <> "" -> logoError p = Some msg ->
  generateReceiptImage measureText logoError qrLoads rd o
  = match generateReceiptImage measureText logoError qrLoads rd
            (mkImageOptions None (qrCode o)) with
    | Some (cmds, est, fin, w) =>
        Some (cmds, est, fin,
              (w ++ [("Could not load logo image at path: " ++ p ++ ". Error: " ++ msg)%string])%list)
    | None => None
    end.
Proof.
  intros m le ql rd o p msg Hp Hne Hle. unfold generateReceiptImage.
  cbn [logoPath qrCode]. rewrite Hp.
  unfold draw_logo. apply String.eqb_neq in Hne. rewrite Hne, Hle.
  destruct (calculateLineItems (items rd)) as [[[lis sub] ws]|]; [|reflexivity].
  cbv beta iota zeta delta [bind_opt].
  destruct (draw_items _ _ _ _) as [st3|]; [|reflexivity].
  destruct (draw_summary _ _ _ _ _ _) as [st4|]; [|reflexivity].
  destruct (draw_qr _ _ _) as [st5|]; [|reflexivity].
  rewrite app_nil_r. reflexivity.
Qed.

Lemma logo_failure_only_warns_witness :
  logoPath (mkImageOptions (Some "logo.png") None) = Some "logo.png" /\
  "logo.png" <> "" /\
  (fun _ : string => Some "ENOENT") "logo.png" = Some "ENOENT" /\
  generateReceiptImage courier14 (fun _ => Some "ENOENT") (fun _ _ => true) coffee_shop
    (mkImageOptions (Some "logo.png") None)
  = match generateReceiptImage courier14 (fun _ => Some "ENOENT") (fun _ _ => true)
            coffee_shop (mkImageOptions None (qrCode (mkImageOptions (Some "logo.png") None))) with
    | Some (cmds, est, fin, w) =>
        Some (cmds, est, fin,
              (w ++ [("Could not load logo image at path: " ++ "logo.png" ++ ". Error: "
                      ++ "ENOENT")%string])%list)
    | None => None
    end.
Proof.
  assert (H1 : logoPath (mkImageOptions (Some "logo.png") None) = Some "logo.png")
    by reflexivity.
  assert (H2 : "logo.png" <> "") by discriminate.
  assert (H3 : (fun _ : string => Some "ENOENT") "logo.png" = Some "ENOENT")
    by reflexivity.
  split; [exact H1|]. split; [exact H2|]. split; [exact H3|].
  exact (logo_failure_only_warns courier14 _ (fun _ _ => true) coffee_shop _ _ _ H1 H2 H3).
Defined.

(** ** When the image is drawn *)

Lemma Forall2_in_r : forall {A B} (P : A -> B -> Prop) l1 l2 y,
  Forall2 P l1 l2 -> In y l2 -> exists x, In x l1 /\ P x y.
Proof.
  intros A B P l1 l2 y HF. induction HF as [|a b l1' l2' Hab _ IH]; intros Hin;
    [destruct Hin|].
  destruct Hin as [<-|Hin]; [exists a; split; [left|]; auto|].
  destruct (IH Hin) as [x [Hx Hp]]. exists x. split; [right|]; auto.
Qed.

Lemma calc_item_quantity : forall it li ws,
  calc_item it = Some (li, ws) -> js_ToString (li_quantity li) <> None.
Proof.
  intros it li ws H. unfold calc_item in H.
  destruct (parseFloat (quantity it)) as [q|] eqn:Eq; [|discriminate].
  cbn [bind_opt] in H.
  destruct (parseFloat (price it)) as [p|]; [|discriminate]. cbn [bind_opt] in H.
  destruct (_ || _)%bool.
  - injection H as <- _. discriminate.
  - destruct (js_mul _ _) as [[t|zt]|]; cbn [bind_opt] in H; try discriminate.
    injection H as <- _. cbn [li_quantity].
    destruct (quantity it); discriminate.
Qed.

Lemma draw_items_some : forall m cur lis st,
  Forall (fun li => js_ToString (li_quantity li) <> None) lis ->
  exists st', draw_items m cur lis st = Some st'.
Proof.
  intros m cur lis. induction lis as [|li lis IH]; intros st H; [eexists; reflexivity|].
  inversion H as [|? ? Hq Hrest]; subst. cbn [draw_items]. unfold draw_item.
  destruct (js_ToString (li_quantity li)); [|contradiction]. cbn [bind_opt].
  apply IH, Hrest.
Qed.

Lemma draw_summary_some : forall cur d tr vr sub st,
  exists st', draw_summary cur d tr vr (compute_totals sub d tr vr) st = Some st'.
Proof.
  intros cur [ds|] tr vr sub st; unfold draw_summary.
  - destruct (num_gt0 _); cbn [bind_opt]; eexists; reflexivity.
  - cbn [compute_totals t_discountAmount discount_amount].
    change (num_gt0 num_zero) with false. cbn [bind_opt]. eexists; reflexivity.
Qed.

(** X13: once [calculateLineItems] has succeeded, the drawing of the
    receipt does not throw unless the QR code image fails: the quantity of
    every line item converts in [${item.quantity}x], and the discount line
    is drawn only with a discount present.  The creation of the canvases
    and the writing of the file, which can reject too, are outside the
    model. *)
Theorem image_succeeds : forall measureText logoError qrLoads rd o lis sub ws,
  calculateLineItems (items rd) = Some (lis, sub, ws) ->
  (forall qc data, qrCode o = Some qc -> qrData qc = Some data -> data <> "" ->
     qrLoads data (qr_code_size (qrCode o)) = true) ->
  exists r, generateReceiptImage measureText logoError qrLoads rd o = Some r.
Proof.
  intros m le ql rd o lis sub ws Ec Hqr. unfold generateReceiptImage.
  rewrite Ec. cbv beta iota zeta delta [bind_opt].
  destruct (draw_logo le (logoPath o) (mkCanvas padding [FillRect 0 (500 + Z.of_nat (List.length lis) * textLineHeight * 2 + qr_code_height (qrCode o))])) as [st1 lw].
  destruct (draw_items_some m (rd_currency rd) lis
              (draw_items_header (draw_store (default "YOUR STORE NAME" (storeName rd))
                                    (companyAddress rd) st1))) as [st3 E3].
  { destruct (calculateLineItems_inv _ _ _ _ Ec) as [E _].
    apply Forall_forall. intros li Hli.
    destruct (Forall2_in_r _ _ _ _ (map_items_calc _ _ _ E) Hli) as [it [_ [w' Hc]]].
    exact (calc_item_quantity _ _ _ Hc). }
  rewrite E3.
  unfold receipt_totals.
  destruct (draw_summary_some (rd_currency rd) (discount rd) (rd_taxRate rd) (rd_vatRate rd)
              sub (drawLine st3)) as [st4 E4].
  rewrite E4.
  set (st := draw_footer _ _ st4).
  destruct (qrCode o) as [qc|] eqn:Eq; [|eexists; reflexivity].
  unfold draw_qr.
  destruct (qrData qc) as [data|] eqn:Ed; [|eexists; reflexivity].
  destruct (String.eqb data "") eqn:Ee; [eexists; reflexivity|].
  apply String.eqb_neq in Ee.
  rewrite (Hqr qc data eq_refl Ed Ee). eexists; reflexivity.
Qed.

Lemma image_succeeds_witness :
  match calculateLineItems (items coffee_shop) with
  | Some (lis, sub, ws) =>
      (forall qc data, qrCode no_image_options = Some qc -> qrData qc = Some data ->
         data <> "" -> (fun _ _ => true) data (qr_code_size (qrCode no_image_options)) = true)
      /\ exists r, generateReceiptImage courier14 (fun _ => None) (fun _ _ => true)
                     coffee_shop no_image_options = Some r
  | None => False
  end.
Proof.
  destruct (calculateLineItems _) as [[[lis sub] ws]|] eqn:Ec;
    [|vm_compute in Ec; discriminate].
  assert (Hq : forall qc data, qrCode no_image_options = Some qc -> qrData qc = Some data ->
            data <> "" -> (fun _ _ => true) data (qr_code_size (qrCode no_image_options)) = true)
    by reflexivity.
  split; [exact Hq|].
  exact (image_succeeds courier14 (fun _ => None) (fun _ _ => true) coffee_shop
           no_image_options lis sub ws Ec Hq).
Defined.

(** ** Where the calls are made *)

Ltac inside_tac :=
  eexists; split; [rewrite <- ?app_assoc; reflexivity|];
  cbn [List.app]; repeat constructor; cbn [cmd_y currentY];
  try change (20 / 2) with 10; lia.

Lemma drawLine_inside : forall st,
  exists l, drawn (drawLine st) = (drawn st ++ l)%list
  /\ Forall (fun c => currentY st <= cmd_y c <= currentY (drawLine st) - 10) l.
Proof. intros. unfold drawLine, advance, draw, textLineHeight. cbn [currentY drawn]. inside_tac. Qed.

Lemma draw_logo_inside : forall le p st,
  exists l, drawn (fst (draw_logo le p st)) = (drawn st ++ l)%list
  /\ Forall (fun c => currentY st <= cmd_y c <= currentY (fst (draw_logo le p st)) - 10) l.
Proof.
  intros le [p|] st; unfold draw_logo.
  - destruct (String.eqb p ""); [|destruct (le p)]; cbn;
      first [exists []; split; [now rewrite app_nil_r | constructor] | inside_tac].
  - exists []; split; [now rewrite app_nil_r | constructor].
Qed.

Lemma draw_store_inside : forall s a st,
  exists l, drawn (draw_store s a st) = (drawn st ++ l)%list
  /\ Forall (fun c => currentY st <= cmd_y c <= currentY (draw_store s a st) - 10) l.
Proof.
  intros s [a|] st; unfold draw_store, advance, draw; cbn [currentY drawn].
  - destruct (String.eqb a ""); cbn [currentY drawn]; inside_tac.
  - inside_tac.
Qed.

Lemma draw_items_header_inside : forall st,
  exists l, drawn (draw_items_header st) = (drawn st ++ l)%list
  /\ Forall (fun c => currentY st <= cmd_y c <= currentY (draw_items_header st) - 10) l.
Proof.
  intros. unfold draw_items_header, drawLine, advance, draw, textLineHeight.
  cbn [currentY drawn]. inside_tac.
Qed.

Lemma inside_trans : forall y0 y1 y2 l1 l2,
  y0 <= y1 ->
  Forall (fun c => y0 <= cmd_y c <= y1 - 10) l1 ->
  Forall (fun c => y1 <= cmd_y c <= y2 - 10) l2 ->
  y1 <= y2 ->
  Forall (fun c => y0 <= cmd_y c <= y2 - 10) (l1 ++ l2)%list.
Proof.
  intros y0 y1 y2 l1 l2 H01 H1 H2 H12. apply Forall_app. split.
  - eapply Forall_impl; [|exact H1]. intros c Hc; cbv beta in *; lia.
  - eapply Forall_impl; [|exact H2]. intros c Hc; cbv beta in *; lia.
Qed.

Lemma draw_name_rest_inside : forall ls st,
  exists l, drawn (draw_name_rest ls st) = (drawn st ++ l)%list
  /\ Forall (fun c => currentY st <= cmd_y c <= currentY (draw_name_rest ls st) - 10) l.
Proof.
  induction ls as [|x ls IH]; intros st; cbn [draw_name_rest].
  - exists []; split; [now rewrite app_nil_r | constructor].
  - set (st1 := advance textLineHeight (draw (FillText ("   " ++ x) padding ALeft) st)).
    destruct (IH st1) as [l [H1 H2]].
    destruct (draw_name_rest_spec ls st1) as [Y _].
    exists (FillText ("   " ++ x) padding ALeft (currentY st) :: l). split.
    + rewrite H1. subst st1. unfold advance, draw. cbn [drawn].
      rewrite <- app_assoc. reflexivity.
    + change (FillText ("   " ++ x) padding ALeft (currentY st) :: l)
        with ([FillText ("   " ++ x) padding ALeft (currentY st)] ++ l)%list.
      apply (inside_trans _ (currentY st1)); [| | exact H2 | ].
      * subst st1. unfold advance, draw, textLineHeight. cbn [currentY]. lia.
      * subst st1. unfold advance, draw, textLineHeight. cbn [currentY].
        repeat constructor; cbn [cmd_y]; lia.
      * lia.
Qed.

Lemma draw_item_inside : forall m cur st li st',
  draw_item m cur st li = Some st' ->
  exists l, drawn st' = (drawn st ++ l)%list
  /\ Forall (fun c => currentY st <= cmd_y c <= currentY st' - 10) l.
Proof.
  intros m cur st li st' H. unfold draw_item in H.
  destruct (js_ToString (li_quantity li)) as [q|]; [|discriminate].
  cbn [bind_opt] in H. injection H as <-.
  set (st1 := advance textLineHeight _).
  set (r := tl _).
  destruct (draw_name_rest_inside r st1) as [l [H1 H2]].
  destruct (draw_name_rest_spec r st1) as [Y _].
  rewrite H1. subst st1. unfold advance, draw, textLineHeight in *.
  cbn [currentY drawn] in *.
  eexists. split; [rewrite <- !app_assoc; reflexivity|].
  cbn [List.app]. constructor; [cbn [cmd_y]; lia|]. constructor; [cbn [cmd_y]; lia|].
  eapply Forall_impl; [|exact H2]. intros c Hc; cbv beta in *; lia.
Qed.

Lemma draw_items_inside : forall m cur lis st st',
  draw_items m cur lis st = Some st' ->
  exists l, drawn st' = (drawn st ++ l)%list
  /\ Forall (fun c => currentY st <= cmd_y c <= currentY st' - 10) l.
Proof.
  intros m cur lis. induction lis as [|li lis IH]; intros st st' H;
    cbn [draw_items] in H.
  - injection H as <-. exists []; split; [now rewrite app_nil_r | constructor].
  - destruct (draw_item m cur st li) as [s1|] eqn:E1; [|discriminate].
    cbn [bind_opt] in H.
    destruct (draw_item_inside _ _ _ _ _ E1) as [l1 [D1 F1]].
    destruct (draw_item_spec _ _ _ _ _ E1) as [Y1 _].
    destruct (IH _ _ H) as [l2 [D2 F2]].
    destruct (draw_items_spec _ _ _ _ _ H) as [Y2 _].
    exists (l1 ++ l2)%list. split; [rewrite D2, D1, app_assoc; reflexivity|].
    apply (inside_trans _ (currentY s1)); [lia | exact F1 | exact F2 | lia].
Qed.

Lemma draw_summary_inside : forall cur d tr vr t st st',
  draw_summary cur d tr vr t st = Some st' ->
  exists l, drawn st' = (drawn st ++ l)%list
  /\ Forall (fun c => currentY st <= cmd_y c <= currentY st' - 10) l.
Proof.
  intros cur d tr vr t st st' H. unfold draw_summary in H.
  destruct (num_gt0 (t_discountAmount t)) eqn:Ed;
    [destruct d as [ds|]; [|discriminate]|]; cbn [bind_opt] in H;
    injection H as <-;
    destruct (num_gt0 (t_vat t)), (num_gt0 (t_tax t));
    unfold drawSubTotalLine, advance, draw, textLineHeight; cbn [currentY drawn];
    inside_tac.
Qed.

Lemma draw_footer_inside : forall cur t st,
  exists l, drawn (draw_footer cur t st) = (drawn st ++ l)%list
  /\ Forall (fun c => currentY st <= cmd_y c <= currentY (draw_footer cur t st) - 10) l.
Proof.
  intros. unfold draw_footer, drawSubTotalLine, drawLine, advance, draw, textLineHeight.
  cbn [currentY drawn]. inside_tac.
Qed.

Lemma draw_qr_inside : forall ql q st st',
  draw_qr ql q st = Some st' ->
  (qr_active q = true -> 0 <= qr_code_size q) ->
  exists l, drawn st' = (drawn st ++ l)%list
  /\ Forall (fun c => currentY st <= cmd_y c <= currentY st' - 10) l.
Proof.
  intros ql [[[data|] sz]|] st st' H Hs; unfold draw_qr, qr_active, truthy_str in *;
    cbn [qrData] in *.
  - destruct (String.eqb data "") eqn:E; cbn [negb] in Hs.
    + injection H as <-. exists []; split; [now rewrite app_nil_r | constructor].
    + destruct (ql data _); [|discriminate]. injection H as <-.
      specialize (Hs eq_refl). unfold advance, draw. cbn [currentY drawn].
      unfold qr_code_size, truthy_str in *. cbn [qrData qrSize] in *. rewrite E in *.
      cbn [negb] in *.
      eexists; split; [reflexivity|]. repeat constructor; cbn [cmd_y]; lia.
  - injection H as <-. exists []; split; [now rewrite app_nil_r | constructor].
  - injection H as <-. exists []; split; [now rewrite app_nil_r | constructor].
Qed.

(** X14: the first call on the temporary canvas fills its background
    from [y = 0] over its whole height [estimatedHeight]; with a QR code
    size that is not negative, every later call (text, rules, logo and QR
    code) is made at a [y] between [padding] and
    [finalHeight - padding - 10], that is inside the final canvas. *)
Theorem image_draws_inside : forall measureText logoError qrLoads rd o cmds est fin w,
  generateReceiptImage measureText logoError qrLoads rd o = Some (cmds, est, fin, w) ->
  (qr_active (qrCode o) = true -> 0 <= qr_code_size (qrCode o)) ->
  exists body, cmds = FillRect 0 est :: body
  /\ Forall (fun c => padding <= cmd_y c <= fin - padding - 10) body.
Proof.
  intros m le ql rd o cmds est fin w H Hs. unfold generateReceiptImage in H.
  destruct (calculateLineItems (items rd)) as [[[lis sub] ws]|] eqn:Ec; [|discriminate].
  cbv beta iota zeta delta [bind_opt] in H.
  destruct (draw_logo_inside le (logoPath o) (mkCanvas padding [FillRect 0 (500 + Z.of_nat (List.length lis) * textLineHeight * 2 + qr_code_height (qrCode o))])) as [l1 [D1 F1]].
  pose proof (draw_logo_spec le (logoPath o) (mkCanvas padding [FillRect 0 (500 + Z.of_nat (List.length lis) * textLineHeight * 2 + qr_code_height (qrCode o))])) as [Y1 _].
  destruct (draw_logo le (logoPath o) (mkCanvas padding [FillRect 0 (500 + Z.of_nat (List.length lis) * textLineHeight * 2 + qr_code_height (qrCode o))])) as [st1 lw].
  cbn [fst drawn currentY] in D1, F1, Y1.
  destruct (draw_items m _ lis _) as [st3|] eqn:E3; [|discriminate].
  cbv beta iota zeta delta [bind_opt] in H.
  destruct (draw_summary _ _ _ _ _ _) as [st4|] eqn:E4; [|discriminate].
  cbv beta iota zeta delta [bind_opt] in H.
  destruct (draw_qr ql (qrCode o) _) as [st5|] eqn:E5; [|discriminate].
  cbv beta iota zeta delta [bind_opt] in H.
  remember (500 + Z.of_nat (List.length lis) * textLineHeight * 2
            + qr_code_height (qrCode o)) as e eqn:He in H.
  remember (currentY st5 + padding) as f eqn:Hf in H.
  injection H as <- <- <- _. subst f.
  set (s2 := draw_store _ _ st1) in *.
  set (s3 := draw_items_header s2) in *.
  destruct (draw_store_inside (default "YOUR STORE NAME" (storeName rd)) (companyAddress rd) st1)
    as [l2 [D2 F2]].
  destruct (draw_store_spec (default "YOUR STORE NAME" (storeName rd)) (companyAddress rd) st1)
    as [Y2 _].
  fold s2 in D2, F2, Y2.
  destruct (draw_items_header_inside s2) as [l3 [D3 F3]].
  destruct (draw_items_header_spec s2) as [Y3 _]. fold s3 in D3, F3, Y3.
  destruct (draw_items_inside _ _ _ _ _ E3) as [l4 [D4 F4]].
  destruct (draw_items_spec _ _ _ _ _ E3) as [Y4 _].
  destruct (drawLine_inside st3) as [l5 [D5 F5]].
  destruct (drawLine_spec st3) as [Y5 _].
  destruct (draw_summary_inside _ _ _ _ _ _ _ E4) as [l6 [D6 F6]].
  destruct (draw_summary_spec _ _ _ _ _ _ _ E4) as [Y6 _].
  destruct (draw_footer_inside (rd_currency rd) (receipt_totals rd sub) st4) as [l7 [D7 F7]].
  destruct (draw_footer_spec (rd_currency rd) (receipt_totals rd sub) st4) as [Y7 _].
  destruct (draw_qr_inside _ _ _ _ E5 Hs) as [l8 [D8 F8]].
  destruct (draw_qr_spec _ _ _ _ E5) as [Y8 _].
  assert (Hcmds : drawn st5
                 = FillRect 0 e :: (l1 ++ l2 ++ l3 ++ l4 ++ l5 ++ l6 ++ l7 ++ l8)%list).
  { rewrite D8, D7, D6, D5, D4, D3, D2, D1, He. rewrite <- !app_assoc. reflexivity. }
  rewrite Hcmds. eexists. split; [reflexivity|].
  pose proof (logo_height_range le (logoPath o)).
  assert (Hq : 0 <= (if qr_active (qrCode o) then qr_code_size (qrCode o) + 10 else 0)).
  { destruct (qr_active (qrCode o)); [specialize (Hs eq_refl); lia | lia]. }
  assert (Hsum : 0 <= (if num_gt0 (t_discountAmount (receipt_totals rd sub)) then 20 else 0)
                      + (if num_gt0 (t_vat (receipt_totals rd sub)) then 20 else 0)
                      + (if num_gt0 (t_tax (receipt_totals rd sub)) then 20 else 0))
    by (destruct (num_gt0 _), (num_gt0 _), (num_gt0 _); lia).
  assert (Ha : 0 <= (if truthy_str (companyAddress rd) then 20 else 0))
    by (destruct (truthy_str _); lia).
  unfold padding in *.
  eapply Forall_impl
    with (P := fun c => 20 <= cmd_y c <= currentY st5 - 10).
  { intros c Hc; cbv beta in *; lia. }
  apply (inside_trans _ (currentY st1)); [lia | exact F1 | | lia].
  apply (inside_trans _ (currentY s2)); [lia | exact F2 | | lia].
  apply (inside_trans _ (currentY s3)); [lia | exact F3 | | lia].
  apply (inside_trans _ (currentY st3)); [lia | exact F4 | | lia].
  apply (inside_trans _ (currentY (drawLine st3))); [lia | exact F5 | | lia].
  apply (inside_trans _ (currentY st4)); [lia | exact F6 | | lia].
  apply (inside_trans _ (currentY (draw_footer (rd_currency rd) (receipt_totals rd sub) st4)));
    [lia | exact F7 | exact F8 | lia].
Qed.

Lemma image_draws_inside_witness :
  match generateReceiptImage courier14 (fun _ => None) (fun _ _ => true) coffee_shop
          (mkImageOptions None (Some (mkQr (Some "https://example.com") None))) with
  | Some (cmds, est, fin, w) =>
      (qr_active (qrCode (mkImageOptions None (Some (mkQr (Some "https://example.com") None))))
       = true ->
       0 <= qr_code_size (qrCode (mkImageOptions None
                                    (Some (mkQr (Some "https://example.com") None))))) /\
      exists body, cmds = FillRect 0 est :: body
      /\ Forall (fun c => padding <= cmd_y c <= fin - padding - 10) body
  | None => False
  end.
Proof.
  destruct (generateReceiptImage _ _ _ _ _) as [[[[cmds est] fin] w]|] eqn:E;
    [|vm_compute in E; discriminate].
  assert (Hs : qr_active (qrCode (mkImageOptions None
                 (Some (mkQr (Some "https://example.com") None)))) = true ->
               0 <= qr_code_size (qrCode (mkImageOptions None
                      (Some (mkQr (Some "https://example.com") None)))))
    by (intros _; vm_compute; discriminate).
  split; [exact Hs|].
  exact (image_draws_inside _ _ _ _ _ _ _ _ _ E Hs).
Defined.
